(** * mock-server: request validation, schema resolver and resource store

    A shallow embedding of [handler.go] (the current [handle] and its
    helpers), of the store ([Store] and [Store.Save]) and of the loaded
    OpenAPI document that [server.go] keeps in [openapiDoc].

    Conventions of the embedding
    - Go strings are byte strings ([string]); [len(s)] is [String.length].
    - A decoded JSON value / Go [any] is a [value]; the dynamic type is the
      constructor, so a type assertion [v.(float64)] succeeds on [VFloat]
      only.  [float64] is IEEE binary64 ([PrimFloat.float]), Go [int] is a
      64-bit integer carried in [Z].
    - Go maps are [gmap]s.  Where the source ranges over a map, the model
      folds over it; every such loop in the source is order independent
      except for the order of the produced messages, which follows
      [map_to_list].
    - A nil pointer or nil [*Ref.Value] is [None].
    - The process-wide [openapiDoc] is passed explicitly.
    - The request context [*fiber.Ctx] is a record of its lookups.
    - The logger only prints; it is left out.
    - Functions of the Go libraries that are not part of the repository
      ([json.Unmarshal], [json.MarshalIndent], the [%v] verb of [fmt]) are
      section variables. *)

From Stdlib Require Import Ascii String PrimFloat FloatOps SpecFloat.
From stdpp Require Import gmap strings list fin_maps pretty.

#[local] Set Warnings "-register-all".
#[local] Open Scope Z_scope.

(** ** Strings *)

Definition dquote : string := String "034"%char EmptyString.

Definition bytes (l : list N) : string :=
  fold_right (fun n s => String (ascii_of_N n) s) EmptyString l.

(** A-Z to a-z, every other byte unchanged. *)
Definition lowerAscii (a : ascii) : ascii :=
  let n := N_of_ascii a in
  if ((65 <=? n) && (n <=? 90))%N then ascii_of_N (n + 32) else a.

Fixpoint toLowerAscii (s : string) : string :=
  match s with
  | EmptyString => EmptyString
  | String a r => String (lowerAscii a) (toLowerAscii r)
  end.

(** [strings.EqualFold(s, t)] for a target [t] made of ASCII letters none
    of which has a non-ASCII simple case folding (this excludes k and s;
    the only target in the source is "bearer"). *)
Definition EqualFold (s t : string) : bool :=
  String.eqb (toLowerAscii s) (toLowerAscii t).

(** [strings.HasPrefix(s, p)]. *)
Definition HasPrefix (s p : string) : bool := String.prefix p s.

(** [strings.Split(s, ";")[0]]: the part of [s] before its first ';'. *)
Fixpoint beforeSemicolon (s : string) : string :=
  match s with
  | EmptyString => EmptyString
  | String a r => if Ascii.eqb a ";"%char then EmptyString
                  else String a (beforeSemicolon r)
  end.

(** The UTF-8 encodings of the code points for which [unicode.IsSpace]
    holds. *)
Definition unicodeSpaces : list string :=
  [ bytes [9%N]; bytes [10%N]; bytes [11%N]; bytes [12%N]; bytes [13%N];
    bytes [32%N]; bytes [194%N; 133%N]; bytes [194%N; 160%N];
    bytes [225%N; 154%N; 128%N];
    bytes [226%N; 128%N; 128%N]; bytes [226%N; 128%N; 129%N];
    bytes [226%N; 128%N; 130%N]; bytes [226%N; 128%N; 131%N];
    bytes [226%N; 128%N; 132%N]; bytes [226%N; 128%N; 133%N];
    bytes [226%N; 128%N; 134%N]; bytes [226%N; 128%N; 135%N];
    bytes [226%N; 128%N; 136%N]; bytes [226%N; 128%N; 137%N];
    bytes [226%N; 128%N; 138%N]; bytes [226%N; 128%N; 168%N];
    bytes [226%N; 128%N; 169%N]; bytes [226%N; 128%N; 175%N];
    bytes [226%N; 129%N; 159%N]; bytes [227%N; 128%N; 128%N] ].

Definition dropPrefixOf (cands : list string) (s : string) : option string :=
  match List.find (fun p => String.prefix p s) cands with
  | Some p => Some (String.substring (String.length p)
                      (String.length s - String.length p)%nat s)
  | None => None
  end.

Fixpoint trimLeftSet (fuel : nat) (cands : list string) (s : string) : string :=
  match fuel with
  | O => s
  | S fuel' => match dropPrefixOf cands s with
               | Some r => trimLeftSet fuel' cands r
               | None => s
               end
  end.

Definition revString (s : string) : string :=
  string_of_list_ascii (List.rev (list_ascii_of_string s)).

(** [strings.TrimSpace]. *)
Definition TrimSpace (s : string) : string :=
  let l := trimLeftSet (String.length s) unicodeSpaces s in
  revString (trimLeftSet (String.length l) (List.map revString unicodeSpaces)
               (revString l)).

(** [strings.Join]. *)
Fixpoint Join (l : list string) (sep : string) : string :=
  match l with
  | [] => EmptyString
  | [x] => x
  | x :: r => (x ++ sep ++ Join r sep)%string
  end.

(** ** Integers *)

Definition maxInt : Z := 2 ^ 63 - 1.
Definition minInt : Z := - 2 ^ 63.

Definition clampInt (z : Z) : Z :=
  if z <? minInt then minInt else if maxInt <? z then maxInt else z.

Definition digitOf (a : ascii) : option Z :=
  let n := N_of_ascii a in
  if ((48 <=? n) && (n <=? 57))%N then Some (Z.of_N n - 48) else None.

Definition maxUint64 : Z := 2 ^ 64 - 1.

(** How [strconv.ParseUint] ends on a run of bytes: with the number, with
    a syntax error at the first byte that is not a digit, or with a range
    error as soon as the digits read so far no longer fit 64 bits (the
    bytes after that point are not looked at). *)
Inductive parsed : Type :=
  | Digits (n : Z)
  | SyntaxError
  | RangeError.

Fixpoint parseUint (n : Z) (s : string) : parsed :=
  match s with
  | EmptyString => Digits n
  | String a r =>
      match digitOf a with
      | None => SyntaxError
      | Some d => if maxUint64 <? 10 * n + d then RangeError
                  else parseUint (10 * n + d) r
      end
  end.

(** The optional sign in front of the digits. *)
Definition splitSign (s : string) : bool * string :=
  match s with
  | String "-"%char r => (true, r)
  | String "+"%char r => (false, r)
  | _ => (false, s)
  end.

(** The value [v] of [v, _ := strconv.Atoi(s)]: 0 on a syntax error, the
    bound of the sign on a range error, the number otherwise. *)
Definition Atoi (s : string) : Z :=
  let '(neg, ds) := splitSign s in
  match ds with
  | EmptyString => 0
  | _ => match parseUint 0 ds with
         | Digits n => clampInt (if neg then - n else n)
         | SyntaxError => 0
         | RangeError => if neg then minInt else maxInt
         end
  end.

(** The conversion [int(f)] of a [float64]: truncation toward zero.  Go
    leaves the result open when the value does not fit; the model takes
    what amd64 gives there, the least [int]. *)
Definition int_of_float64 (f : float) : Z :=
  match Prim2SF f with
  | S754_zero _ => 0
  | S754_finite s m e =>
      let a := if 0 <=? e then Z.pos m * 2 ^ e else Z.pos m / 2 ^ (- e) in
      let v := if s then - a else a in
      if (minInt <=? v) && (v <=? maxInt) then v else minInt
  | _ => minInt
  end.

(** ** Dynamically typed values *)

Inductive value : Type :=
  | VNil
  | VBool (b : bool)
  | VFloat (f : float)
  | VInt (z : Z)
  | VString (s : string)
  | VArr (l : list value)
  | VObj (m : gmap string value).

(** One mock record, [map[string]any]. *)
Abbreviation record := (gmap string value).

(** ** The OpenAPI document model (kin-openapi [openapi3]) *)

Inductive Schema : Type := mkSchema {
  Type_ : string;
  Nullable : bool;
  MinLength : N;
  MaxLength : option N;
  Enum : list value;
  MinItems : N;
  Required : list string;
  Properties : gmap string (option Schema);
  AllOf : list (option Schema);
  OneOf : list (option Schema);
  AnyOf : list (option Schema) }.

Record MediaType := mkMediaType { mtSchema : option Schema }.

Record RequestBody := mkRequestBody {
  rbRequired : bool;
  rbContent : option (gmap string MediaType) }.

(** [openapi3.Parameter]. *)
Record OpParameter := mkOpParameter {
  paramName : string;
  paramIn : string;
  paramRequired : bool }.

(** [map[string][]string]: scheme name to scopes. *)
Abbreviation SecurityRequirement := (gmap string (list string)).

Record SecurityScheme := mkSecurityScheme {
  schemeType : string;
  schemeScheme : string;
  schemeIn : string;
  schemeName : string }.

Record Operation := mkOperation {
  opSecurity : option (list SecurityRequirement);
  opRequestBody : option RequestBody;
  opParameters : list (option OpParameter) }.

Record PathItem := mkPathItem {
  piGet : option Operation;
  piPost : option Operation;
  piPut : option Operation;
  piPatch : option Operation;
  piDelete : option Operation }.

Record Components := mkComponents {
  SecuritySchemes : option (gmap string (option SecurityScheme)) }.

(** [openapi3.T]; [PathsFind] is [doc.Paths.Find]. *)
Record T := mkT {
  PathsFind : string -> option PathItem;
  docSecurity : list SecurityRequirement;
  docComponents : option Components }.

(** ** The request context *)

Record Ctx := mkCtx {
  Get : string -> string;
  Query : string -> string;
  Params : string -> string;
  Cookies : string -> string;
  Body : string;
  RoutePath : string;
  (** the map that [c.BodyParser(&body)] leaves in [body], a fresh empty
      map before the call; [None] is the nil map that a JSON body [null]
      leaves *)
  parsedBody : option record }.

(** The entries of that map; a nil map has none. *)
Definition BodyParser (c : Ctx) : record := default ∅ (parsedBody c).

Definition MethodGet : string := "GET".
Definition MethodPost : string := "POST".
Definition MethodPut : string := "PUT".
Definition MethodPatch : string := "PATCH".
Definition MethodDelete : string := "DELETE".

(** ** Schema constraint resolver *)

(** [for name, ref := range schema.Properties] with the nil checks. *)
Definition ownProps (ps : gmap string (option Schema)) : gmap string Schema :=
  map_fold (fun name ref props =>
              match ref with Some v => <[name := v]> props | None => props end)
           ∅ ps.

(** [for k, v := range src { dst[k] = v }]. *)
Definition assignAll {V} (src dst : gmap string V) : gmap string V :=
  map_fold (fun k v dst => <[k := v]> dst) dst src.

(** [for k, v := range p { if _, exists := props[k]; !exists { props[k] = v } }]. *)
Definition mergeMissing (p props : gmap string Schema) : gmap string Schema :=
  map_fold (fun k v props =>
              match props !! k with Some _ => props | None => <[k := v]> props end)
           props p.

Fixpoint collectFrom (schema : Schema) : list string * gmap string Schema :=
  let required := [] ++ Required schema in
  let props := ownProps (Properties schema) in
  let '(required, props) :=
    (fix walkAllOf (subs : list (option Schema))
         (acc : list string * gmap string Schema) :=
       match subs with
       | [] => acc
       | None :: rest => walkAllOf rest acc
       | Some sub :: rest =>
           let '(r, p) := collectFrom sub in
           walkAllOf rest (acc.1 ++ r, assignAll p acc.2)
       end) (AllOf schema) (required, props) in
  let walkAlt :=
    (fix walkAlt (subs : list (option Schema)) (props : gmap string Schema) :=
       match subs with
       | [] => props
       | None :: rest => walkAlt rest props
       | Some sub :: rest =>
           let '(_, p) := collectFrom sub in
           walkAlt rest (mergeMissing p props)
       end) in
  let props := walkAlt (OneOf schema) props in
  let props := walkAlt (AnyOf schema) props in
  (required, props).

Definition collectSchemaConstraints (schema : option Schema)
  : list string * gmap string Schema :=
  match schema with
  | None => ([], ∅)
  | Some s => collectFrom s
  end.

(** The three loops of [collectFrom] as functions of their own, to state
    what each loop does to its accumulator. *)
Fixpoint walkAllOf (subs : list (option Schema))
    (acc : list string * gmap string Schema)
  : list string * gmap string Schema :=
  match subs with
  | [] => acc
  | None :: rest => walkAllOf rest acc
  | Some sub :: rest =>
      walkAllOf rest (acc.1 ++ (collectFrom sub).1,
                      assignAll (collectFrom sub).2 acc.2)
  end.

Fixpoint walkAlt (subs : list (option Schema)) (props : gmap string Schema)
  : gmap string Schema :=
  match subs with
  | [] => props
  | None :: rest => walkAlt rest props
  | Some sub :: rest => walkAlt rest (mergeMissing (collectFrom sub).2 props)
  end.

(** The required names that a list of branches contributes, in order. *)
Definition branchRequired (subs : list (option Schema)) : list string :=
  flat_map (fun sub => match sub with
                       | Some b => (collectFrom b).1
                       | None => []
                       end) subs.

(** ** Responses *)

(** What [handle] hands back to fiber: a JSON response written on the
    context, a bare status, or one of fiber's error values. *)
Inductive response : Type :=
  | RespJSON (status : Z) (payload : value)
  | RespStatus (status : Z)
  | ErrNotFound
  | ErrNotImplemented.

(** [http.StatusText] on the codes the handler uses. *)
Definition StatusText (code : Z) : string :=
  if code =? 400 then "Bad Request"
  else if code =? 401 then "Unauthorized"
  else if code =? 415 then "Unsupported Media Type"
  else "".

Definition validationError (statusCode : Z) (errMsg : string) : response :=
  RespJSON statusCode
    (VObj (<["error" := VString (StatusText statusCode)]>
             (<["message" := VString errMsg]> ∅))).

Definition bodyValidationError (statusCode : Z) (violations : list string)
  : response :=
  RespJSON statusCode
    (VObj (<["error" := VString (StatusText statusCode)]>
             (<["message" := VString (Join violations "; ")]> ∅))).

(** ** The store and its world *)

(** [mu] is true while the mutex is held. *)
Record Store := mkStore {
  mu : bool;
  Data : gmap string (list record) }.

(** The store together with the files of the persistence medium. *)
Record World := mkWorld {
  store : Store;
  files : gmap string string }.

(** How a call ends: it returns, it panics, or it waits for ever on a
    mutex that nobody will release. *)
Inductive outcome (A : Type) : Type :=
  | Returns (a : A) (w : World)
  | Panics (w : World)
  | Blocks (w : World).
Arguments Returns {A} a w.
Arguments Panics {A} w.
Arguments Blocks {A} w.

Definition M (A : Type) : Type := World -> outcome A.

Definition ret {A} (a : A) : M A := fun w => Returns a w.

Definition bind {A B} (m : M A) (k : A -> M B) : M B :=
  fun w => match m w with
           | Returns a w' => k a w'
           | Panics w' => Panics w'
           | Blocks w' => Blocks w'
           end.

Notation "x <- m ;; k" := (bind m (fun x => k))
  (at level 100, m at next level, right associativity).

(** [defer d] before [body]: [d] runs when [body] returns or panics. *)
Definition defer {A} (d : M unit) (body : M A) : M A :=
  fun w => match body w with
           | Returns a w' => match d w' with
                             | Returns _ w'' => Returns a w''
                             | Panics w'' => Panics w''
                             | Blocks w'' => Blocks w''
                             end
           | Panics w' => match d w' with
                          | Blocks w'' => Blocks w''
                          | Returns _ w'' | Panics w'' => Panics w''
                          end
           | Blocks w' => Blocks w'
           end.

Definition world_of {A} (o : outcome A) : World :=
  match o with Returns _ w | Panics w | Blocks w => w end.

Definition setMu (b : bool) (w : World) : World :=
  mkWorld (mkStore b (Data (store w))) (files w).

Definition setData (d : gmap string (list record)) (w : World) : World :=
  mkWorld (mkStore (mu (store w)) d) (files w).

(** [if store.Data[resource] == nil { store.Data[resource] = []map[string]any{} }]. *)
Definition ensureList (resource : string) (w : World) : World :=
  match Data (store w) !! resource with
  | None => setData (<[resource := []]> (Data (store w))) w
  | Some _ => w
  end.

(** [sync.Mutex.Lock]: the mutex has no owner and is not reentrant.  Calls
    are modelled one at a time (the mutex serialises the handlers, so no
    interleaving is modelled); a mutex found held is then held by the
    caller itself or by an earlier call that never returns, and the wait
    has no end. *)
Definition Lock : M unit :=
  fun w => if mu (store w) then Blocks w else Returns tt (setMu true w).

(** [sync.Mutex.Unlock]; unlocking a free mutex is a fatal error. *)
Definition Unlock : M unit :=
  fun w => if mu (store w) then Returns tt (setMu false w) else Panics w.

(** The loops [for i, item := range list { if int(item["id"].(float64)) == id ... }]:
    the first index whose record has the id, a panic when a record met on
    the way has no [float64] under "id". *)
Inductive lookupResult : Type :=
  | Found (i : nat) (item : record)
  | NotFound
  | AssertPanic.

Fixpoint findItem (id : Z) (list : list record) (i : nat) : lookupResult :=
  match list with
  | [] => NotFound
  | item :: rest =>
      match item !! "id" with
      | Some (VFloat f) =>
          if int_of_float64 f =? id then Found i item
          else findItem id rest (S i)
      | _ => AssertPanic
      end
  end.

(** ** Security evaluator *)

Definition resolveSecurityRequirements (doc : option T) (op : option Operation)
  : list SecurityRequirement :=
  match op with
  | Some o => match opSecurity o with
              | Some s => s
              | None => match doc with Some d => docSecurity d | None => [] end
              end
  | None => match doc with Some d => docSecurity d | None => [] end
  end.

(** The body of the loop over the schemes of one requirement, for a scheme
    that the document declares. *)
Definition schemeSatisfied (c : Ctx) (scheme : SecurityScheme) : bool :=
  if String.eqb (schemeType scheme) "http" then
    let auth := Get c "Authorization" in
    if String.eqb auth "" then false
    else if EqualFold (schemeScheme scheme) "bearer" then
      negb (negb (HasPrefix auth "Bearer ") && negb (HasPrefix auth "bearer "))
    else true
  else if String.eqb (schemeType scheme) "apiKey" then
    if String.eqb (schemeIn scheme) "header" then
      negb (String.eqb (Get c (schemeName scheme)) "")
    else if String.eqb (schemeIn scheme) "query" then
      negb (String.eqb (Query c (schemeName scheme)) "")
    else if String.eqb (schemeIn scheme) "cookie" then
      negb (String.eqb (Cookies c (schemeName scheme)) "")
    else false
  else negb (String.eqb (Get c "Authorization") "").

Definition requirementSatisfied
    (schemes : gmap string (option SecurityScheme)) (c : Ctx)
    (req : SecurityRequirement) : bool :=
  forallb (fun kv => match schemes !! kv.1 with
                     | Some (Some scheme) => schemeSatisfied c scheme
                     | _ => false
                     end) (map_to_list req).

Definition isAuthenticated (doc : option T) (c : Ctx)
    (reqs : list SecurityRequirement) : bool :=
  match doc with
  | None => false
  | Some d =>
    match docComponents d with
    | None => false
    | Some comps =>
      match SecuritySchemes comps with
      | None => false
      | Some schemes =>
          (fix loop (reqs : list SecurityRequirement) : bool :=
             match reqs with
             | [] => false
             | req :: rest =>
                 if Nat.eqb (size req) 0 then true
                 else if requirementSatisfied schemes c req then true
                 else loop rest
             end) reqs
      end
    end
  end.

(** Whether the guard at the head of [isAuthenticated] lets the loop run:
    the document, its components and its table of schemes are all there. *)
Definition hasSchemeTable (doc : option T) : bool :=
  match doc with
  | Some d => match docComponents d with
              | Some comps => match SecuritySchemes comps with
                              | Some _ => true
                              | None => false
                              end
              | None => false
              end
  | None => false
  end.

(** The wording of the specification for the bearer check: [s] starts
    with [p], letters compared without regard to case. *)
Definition hasPrefixFold (s p : string) : bool :=
  EqualFold (String.substring 0 (String.length p) s) p.

(** STEP 1 of [handle]: [Some r] when the handler returns [r] there. *)
Definition securityStep (doc : option T) (operation : option Operation)
    (c : Ctx) : option response :=
  let secReqs := resolveSecurityRequirements doc operation in
  if (0 <? length secReqs)%nat then
    if negb (isAuthenticated doc c secReqs) then
      Some (validationError 401 "Invalid security scheme used")
    else None
  else None.

Definition needsRequestBody (method : string) : bool :=
  String.eqb method MethodPost || String.eqb method MethodPut
  || String.eqb method MethodPatch.

Definition operationForPathMethod (doc : option T) (path method : string)
  : option Operation :=
  match doc with
  | None => None
  | Some d =>
      match PathsFind d path with
      | Some item =>
          if String.eqb method MethodGet then piGet item
          else if String.eqb method MethodPost then piPost item
          else if String.eqb method MethodPut then piPut item
          else if String.eqb method MethodPatch then piPatch item
          else if String.eqb method MethodDelete then piDelete item
          else None
      | None => None
      end
  end.

(** ** Sample documents, requests and stores *)

(** A schema with every field at its zero value but the given ones. *)
Definition objectSchema (required : list string)
    (properties : gmap string (option Schema))
    (allOf oneOf anyOf : list (option Schema)) : Schema :=
  mkSchema "object" false 0 None [] 0 required properties allOf oneOf anyOf.

Definition typedSchema (type : string) (minLength : N) : Schema :=
  mkSchema type false minLength None [] 0 [] ∅ [] [] [].

(** [name] is required by the node and by its only all-of branch. *)
Definition dupSchema : Schema :=
  objectSchema ["name"] ∅ [Some (objectSchema ["name"] ∅ [] [] [])] [] [].

(** Two all-of branches declare [x], as a string and as an integer. *)
Definition branchString : Schema :=
  objectSchema [] {[ "x" := Some (typedSchema "string" 0) ]} [] [] [].
Definition branchInteger : Schema :=
  objectSchema [] {[ "x" := Some (typedSchema "integer" 0) ]} [] [] [].
Definition clashSchema : Schema :=
  objectSchema [] ∅ [Some branchString; Some branchInteger] [] [].

(** The body schema of the worked example: [name] required, a string of at
    least three bytes. *)
Definition nameSchema : Schema :=
  objectSchema ["name"] {[ "name" := Some (typedSchema "string" 3) ]} [] [] [].

Definition noLookup : string -> string := fun _ => EmptyString.

Definition header (name val : string) : string -> string :=
  fun k => if String.eqb k name then val else EmptyString.

(** A request for [route] with no header, parameter, cookie or body. *)
Definition bareCtx (route : string) : Ctx :=
  mkCtx noLookup noLookup noLookup noLookup EmptyString route (Some ∅).

Definition withAuthorization (val : string) : Ctx :=
  mkCtx (header "Authorization" val) noLookup noLookup noLookup
        EmptyString "/widgets" (Some ∅).

Definition bearerScheme : SecurityScheme :=
  mkSecurityScheme "http" "bearer" EmptyString EmptyString.

Definition noPaths : string -> option PathItem := fun _ => None.

Definition docBearer : T :=
  mkT noPaths []
      (Some (mkComponents (Some {[ "auth" := Some bearerScheme ]}))).

Definition plainOperation : Operation := mkOperation None None [].

(** [/widgets] with GET and POST, [/widgets/{id}] with a GET whose [id] is
    a required path parameter, PUT and DELETE. *)
Definition widgetsDoc : T :=
  mkT (fun path =>
         if String.eqb path "/widgets" then
           Some (mkPathItem (Some plainOperation) (Some plainOperation)
                            None None None)
         else if String.eqb path "/widgets/{id}" then
           Some (mkPathItem
                   (Some (mkOperation None None
                            [Some (mkOpParameter "id" "path" true)]))
                   None (Some plainOperation) None (Some plainOperation))
         else None)
      [] None.

(** POST /widgets with the decoded body [{color: red}]. *)
Definition createRed : Ctx :=
  mkCtx noLookup noLookup noLookup noLookup EmptyString "/widgets"
        (Some {[ "color" := VString "red" ]}).

(** A request on [/widgets/{id}] whose [id] parameter is [id]. *)
Definition byId (id : string) : Ctx :=
  mkCtx noLookup noLookup (header "id" id) noLookup EmptyString
        "/widgets/{id}" (Some ∅).

(** Stand-ins for the [%v] verb and for [json.MarshalIndent] where a
    closed example needs them; neither is reached in the examples. *)
Definition noFmt : value -> string := fun _ => EmptyString.
Definition noMarshal : gmap string (list record) -> string :=
  fun _ => EmptyString.

(** The store with an empty [widgets] list, the mutex free, no file. *)
Definition emptyWorld : World :=
  mkWorld (mkStore false {[ "widgets" := [] ]}) ∅.

Definition redRecord : record :=
  <["id" := VInt 1]> {[ "color" := VString "red" ]}.

(** ** Validation and the handler, over the Go library functions *)

(** The JSON text of an object whose only member is [name], a string. *)
Definition nameBody (val : string) : string :=
  "{" +:+ dquote +:+ "name" +:+ dquote +:+ ":" +:+ dquote +:+ val +:+ dquote
  +:+ "}".

(** A decoder standing for [json.Unmarshal] on the three bodies of the
    worked example of the specification; every other input is reported as
    malformed. *)
Definition sampleUnmarshal (raw : string) : string + record :=
  if String.eqb raw "{}" then inr ∅
  else if String.eqb raw (nameBody "ab") then
    inr (<["name" := VString "ab"]> ∅)
  else if String.eqb raw (nameBody "abc") then
    inr (<["name" := VString "abc"]> ∅)
  else inl "unexpected end of JSON input"%string.

Section GoLibrary.

(** [json.Unmarshal(raw, &body)] into a [map[string]any]: the text of the
    error, or the decoded object. *)
Variable json_Unmarshal : string -> string + record.

(** [fmt.Sprintf("%v", v)]. *)
Variable fmt_v : value -> string.

(** [json.MarshalIndent(s.Data, "", "  ")]. *)
Variable json_MarshalIndent : gmap string (list record) -> string.

Definition propertyMsg (name rest : string) : string :=
  "Property " +:+ dquote +:+ name +:+ dquote +:+ rest.

(** [checkType]: [None] is the nil error. *)
Definition checkType (name : string) (val : value) (prop : Schema)
  : option string :=
  match val with
  | VNil =>
      if negb (Nullable prop) then Some (propertyMsg name " must not be null")
      else None
  | _ =>
    if String.eqb (Type_ prop) "string" then
      match val with
      | VString s =>
          let len := N.of_nat (String.length s) in
          if ((0 <? MinLength prop) && (len <? MinLength prop))%N then
            Some (propertyMsg name (" must be at least "
                    +:+ pretty (MinLength prop) +:+ " characters"))
          else
            match MaxLength prop with
            | Some mx =>
                if (mx <? len)%N then
                  Some (propertyMsg name (" must be at most "
                          +:+ pretty mx +:+ " characters"))
                else
                  if (0 <? length (Enum prop))%nat
                     && negb (existsb (fun e => String.eqb (fmt_v e) s)
                                      (Enum prop))
                  then Some (propertyMsg name (" must be one of: "
                               +:+ fmt_v (VArr (Enum prop))))
                  else None
            | None =>
                if (0 <? length (Enum prop))%nat
                   && negb (existsb (fun e => String.eqb (fmt_v e) s)
                                    (Enum prop))
                then Some (propertyMsg name (" must be one of: "
                             +:+ fmt_v (VArr (Enum prop))))
                else None
            end
      | _ => Some (propertyMsg name " must be a string")
      end
    else if String.eqb (Type_ prop) "integer"
            || String.eqb (Type_ prop) "number" then
      match val with
      | VFloat _ => None
      | _ => Some (propertyMsg name " must be a number")
      end
    else if String.eqb (Type_ prop) "boolean" then
      match val with
      | VBool _ => None
      | _ => Some (propertyMsg name " must be a boolean")
      end
    else if String.eqb (Type_ prop) "array" then
      match val with
      | VArr arr =>
          if ((0 <? MinItems prop)
              && (N.of_nat (length arr) <? MinItems prop))%N then
            Some (propertyMsg name (" must have at least "
                    +:+ pretty (MinItems prop) +:+ " items"))
          else None
      | _ => Some (propertyMsg name " must be an array")
      end
    else None
  end.

(** The two loops of [validateBody] over a decoded body. *)
Definition missingRequired (body : record) (required : list string)
    (violations : list string) : list string :=
  fold_left (fun violations field =>
               match body !! field with
               | Some _ => violations
               | None => violations ++
                   ["request.body Request body must have required property '"
                      +:+ field +:+ "'"]
               end) required violations.

Definition propertyViolations (body : record) (props : gmap string Schema)
    (violations : list string) : list string :=
  fold_left (fun violations np =>
               match body !! np.1 with
               | None => violations
               | Some val =>
                   match checkType np.1 val np.2 with
                   | Some err => violations ++ ["request.body " +:+ err]
                   | None => violations
                   end
               end) (map_to_list props) violations.

Definition validateBody (raw : string) (schema : option Schema) : list string :=
  match json_Unmarshal raw with
  | inl err => ["Invalid JSON body: " +:+ err]
  | inr body =>
      let '(required, props) := collectSchemaConstraints schema in
      let violations := [] in
      let violations := missingRequired body required violations in
      let violations := propertyViolations body props violations in
      violations
  end.

(** STEP 2 of [handle]: [Some r] when the handler returns [r] there. *)
Definition contentStep (operation : option Operation) (method : string)
    (c : Ctx) : option response :=
  match operation with
  | Some op =>
    if needsRequestBody method then
      match opRequestBody op with
      | Some rb =>
          if rbRequired rb && Nat.eqb (String.length (Body c)) 0 then
            Some (validationError 400 "Body parameter is required")
          else
            match rbContent rb with
            | Some content =>
              if (0 <? String.length (Body c))%nat then
                let ct := Get c "Content-Type" in
                if String.eqb ct "" then
                  Some (validationError 415 "Content-Type header is required")
                else
                  let baseCT := TrimSpace (beforeSemicolon ct) in
                  match content !! baseCT with
                  | None =>
                      let allowed := (map_to_list content).*1 in
                      Some (validationError 415
                              ("Unsupported media type: " +:+ baseCT
                                 +:+ ". Allowed: " +:+ Join allowed ", "))
                  | Some mediaType =>
                      match mtSchema mediaType with
                      | Some schema =>
                          let violations := validateBody (Body c) (Some schema) in
                          if (0 <? length violations)%nat then
                            Some (bodyValidationError 400 violations)
                          else None
                      | None => None
                      end
                  end
              else None
            | None => None
            end
      | None => None
      end
    else None
  | None => None
  end.

(** STEP 3 of [handle]: the first required parameter that is missing. *)
Fixpoint paramStep (params : list (option OpParameter)) (c : Ctx)
  : option response :=
  match params with
  | [] => None
  | None :: rest => paramStep rest c
  | Some p :: rest =>
      if negb (paramRequired p) then paramStep rest c
      else
        let val :=
          if String.eqb (paramIn p) "query" then Query c (paramName p)
          else if String.eqb (paramIn p) "path" then Params c (paramName p)
          else if String.eqb (paramIn p) "header" then Get c (paramName p)
          else ""%string in
        if String.eqb val "" then
          Some (validationError 400
                  ("Required " +:+ paramIn p +:+ " parameter " +:+ dquote
                     +:+ paramName p +:+ dquote +:+ " is missing"))
        else paramStep rest c
  end.

(** [Store.Save]. *)
Definition Save (file : string) : M unit :=
  _ <- Lock ;;
  defer Unlock
    (fun w => Returns tt
                (mkWorld (store w)
                   (<[file := json_MarshalIndent (Data (store w))]> (files w)))).

Definition saveStore (dataFile : string) : M unit :=
  if String.eqb dataFile "" then Save "data.json" else Save dataFile.

(** STEP 4 of [handle], run with the mutex taken.  In the create,
    [body["id"] = ...] on a nil map panics; in the update, ranging over a
    nil map assigns nothing. *)
Definition mockResponse (c : Ctx) (method resource dataFile : string)
  : M response :=
  fun w =>
    let w := ensureList resource w in
    let list := default [] (Data (store w) !! resource) in
    let id := Atoi (Params c "id") in
    if String.eqb method MethodGet then
      if 0 <? id then
        match findItem id list 0 with
        | Found _ item => Returns (RespJSON 200 (VObj item)) w
        | NotFound => Returns ErrNotFound w
        | AssertPanic => Panics w
        end
      else Returns (RespJSON 200 (VArr (VObj <$> list))) w
    else if String.eqb method MethodPost then
      match parsedBody c with
      | None => Panics w
      | Some body =>
          let body := <["id" := VInt (Z.of_nat (length list) + 1)]> body in
          let w := setData (<[resource := list ++ [body]]> (Data (store w))) w in
          (_ <- saveStore dataFile ;; ret (RespJSON 201 (VObj body))) w
      end
    else if String.eqb method MethodPut || String.eqb method MethodPatch then
      match findItem id list 0 with
      | Found i item =>
          let item := assignAll (BodyParser c) item in
          let w := setData (<[resource := <[i := item]> list]> (Data (store w))) w in
          (_ <- saveStore dataFile ;; ret (RespJSON 200 (VObj item))) w
      | NotFound => Returns ErrNotFound w
      | AssertPanic => Panics w
      end
    else if String.eqb method MethodDelete then
      match findItem id list 0 with
      | Found i _ =>
          let w := setData (<[resource := take i list ++ drop (S i) list]>
                              (Data (store w))) w in
          (_ <- saveStore dataFile ;; ret (RespStatus 204)) w
      | NotFound => Returns ErrNotFound w
      | AssertPanic => Panics w
      end
    else Returns ErrNotImplemented w.

(** [handle]. *)
Definition handle (doc : option T) (c : Ctx) (method resource dataFile : string)
  : M response :=
  let operation := operationForPathMethod doc (RoutePath c) method in
  match securityStep doc operation c with
  | Some r => ret r
  | None =>
      match contentStep operation method c with
      | Some r => ret r
      | None =>
          match paramStep (from_option opParameters [] operation) c with
          | Some r => ret r
          | None =>
              _ <- Lock ;;
              defer Unlock (mockResponse c method resource dataFile)
          end
      end
  end.

(** The server handling requests one after the other.  A handler that
    waits for ever keeps the world it reached while later requests are
    taken; a panic ends the process (no recover middleware is installed). *)
Record Request := mkRequest {
  rqCtx : Ctx;
  rqMethod : string;
  rqResource : string }.

Fixpoint serve (doc : option T) (dataFile : string) (reqs : list Request)
    (w : World) : World :=
  match reqs with
  | [] => w
  | r :: rest =>
      match handle doc (rqCtx r) (rqMethod r) (rqResource r) dataFile w with
      | Returns _ w' | Blocks w' => serve doc dataFile rest w'
      | Panics w' => w'
      end
  end.

End GoLibrary.

(** The record list of a resource, and the values under "id" in a list. *)
Definition recordsOf (w : World) (resource : string) : list record :=
  default [] (Data (store w) !! resource).



(** The world in which a POST on [/widgets] waits for ever. *)
Definition wedgedWorld : World :=
  mkWorld (mkStore true {[ "widgets" := [redRecord] ]}) ∅.




(** The paths of [widgetsDoc] under the document-wide security list
    [[{}]], without and with a table of security schemes. *)
Definition docOpen : T := mkT (PathsFind widgetsDoc) [∅] None.

Definition docOpenWithTable : T :=
  mkT (PathsFind widgetsDoc) [∅] (Some (mkComponents (Some ∅))).

(** ** Further parts of the program *)

(** The value that STEP 3 of [handle] reads for a parameter: the
    [switch p.In], with the empty string for any other location. *)
Definition paramValue (c : Ctx) (p : OpParameter) : string :=
  if String.eqb (paramIn p) "query" then Query c (paramName p)
  else if String.eqb (paramIn p) "path" then Params c (paramName p)
  else if String.eqb (paramIn p) "header" then Get c (paramName p)
  else EmptyString.

(** The response of STEP 3 for a missing parameter. *)
Definition missingParameter (p : OpParameter) : response :=
  validationError 400
    ("Required " +:+ paramIn p +:+ " parameter " +:+ dquote +:+ paramName p
       +:+ dquote +:+ " is missing").

(** The violation of [validateBody] for a missing required field. *)
Definition missingProperty (field : string) : string :=
  "request.body Request body must have required property '" +:+ field +:+ "'".

(** Whether the decoded body lacks a field, and the violation that one
    resolved property contributes, if any: the bodies of the two loops of
    [validateBody]. *)
Definition isMissing (body : record) (field : string) : bool :=
  match body !! field with Some _ => false | None => true end.

Definition violationOf (fmt_v : value -> string) (body : record)
    (np : string * Schema) : option string :=
  match body !! np.1 with
  | None => None
  | Some val =>
      match checkType fmt_v np.1 val np.2 with
      | Some err => Some ("request.body " +:+ err)
      | None => None
      end
  end.

(** An operation whose body is required and declared for
    [application/json] with the schema of the worked example, and a
    request that carries a body under a content type. *)
Definition jsonBody : RequestBody :=
  mkRequestBody true (Some {[ "application/json" := mkMediaType (Some nameSchema) ]}).

Definition jsonOperation : Operation := mkOperation None (Some jsonBody) [].

Definition withBody (contentType body : string) : Ctx :=
  mkCtx (header "Content-Type" contentType) noLookup noLookup noLookup
        body "/widgets" (Some ∅).

(** Sample parameters and schemes. *)
Definition sessionCookie : OpParameter := mkOpParameter "session" "cookie" true.
Definition pageQuery : OpParameter := mkOpParameter "page" "query" true.

Definition apiKeyHeader : SecurityScheme :=
  mkSecurityScheme "apiKey" EmptyString "header" "X-Key".

Definition docApiKey : T :=
  mkT noPaths [{[ "key" := [] ]}]
      (Some (mkComponents (Some {[ "key" := Some apiKeyHeader ]}))).

Definition withHeader (name val : string) : Ctx :=
  mkCtx (header name val) noLookup noLookup noLookup EmptyString "/widgets"
        (Some ∅).

(** A store as it is after loading two records from the file: the ids
    are [float64]. *)
Definition firstWidget : record := {[ "id" := VFloat 1%float ]}.
Definition secondWidget : record :=
  <["id" := VFloat 2%float]> {[ "color" := VString "blue" ]}.

Definition loadedWorld : World :=
  mkWorld (mkStore false {[ "widgets" := [firstWidget; secondWidget] ]}) ∅.

(** A printable ASCII byte other than the space: 33 to 126. *)
Definition visibleAscii (a : ascii) : bool :=
  ((33 <=? N_of_ascii a) && (N_of_ascii a <=? 126))%N.

(** The three validation steps of [handle] all let the request through. *)
Definition passesValidation (json_Unmarshal : string -> string + record)
    (fmt_v : value -> string) (doc : option T) (c : Ctx) (method : string)
  : Prop :=
  let operation := operationForPathMethod doc (RoutePath c) method in
  securityStep doc operation c = None
  /\ contentStep json_Unmarshal fmt_v operation method c = None
  /\ paramStep (from_option opParameters [] operation) c = None.

(** [strings.Trim(s, "/")] and [strings.Split(s, "/")[0]], for a cutset
    and a separator of one byte. *)
Fixpoint trimLeftByte (a : ascii) (s : string) : string :=
  match s with
  | EmptyString => EmptyString
  | String b r => if Ascii.eqb b a then trimLeftByte a r else s
  end.

Fixpoint trimRightByte (a : ascii) (s : string) : string :=
  match s with
  | EmptyString => EmptyString
  | String b r =>
      match trimRightByte a r with
      | EmptyString => if Ascii.eqb b a then EmptyString
                       else String b EmptyString
      | r' => String b r'
      end
  end.

Definition TrimByte (a : ascii) (s : string) : string :=
  trimRightByte a (trimLeftByte a s).

Fixpoint beforeByte (a : ascii) (s : string) : string :=
  match s with
  | EmptyString => EmptyString
  | String b r => if Ascii.eqb b a then EmptyString
                  else String b (beforeByte a r)
  end.

(** The resource name of a path in [RegisterRoutes]:
    [strings.Split(strings.Trim(p, "/"), "/")[0]]. *)
Definition resourceOf (p : string) : string :=
  beforeByte "/"%char (TrimByte "/"%char p).

(** One [app.Add(method, p, ...)]: the handler it installs calls [handle]
    with this method and resource. *)
Record Route := mkRoute {
  rtMethod : string;
  rtPath : string;
  rtResource : string }.

(** The methods for which [RegisterRoutes] calls [register], in its
    order. *)
Definition whenSet (op : option Operation) (method : string) : list string :=
  match op with Some _ => [method] | None => [] end.

Definition methodsOf (item : PathItem) : list string :=
  whenSet (piGet item) MethodGet
  ++ whenSet (piPost item) MethodPost
  ++ whenSet (piPut item) MethodPut
  ++ whenSet (piPatch item) MethodPatch
  ++ whenSet (piDelete item) MethodDelete.

(** The body of the loop over [doc.Paths]. *)
Definition registerPath (p : string) (item : PathItem)
    (acc : gmap string (list record) * list Route)
  : gmap string (list record) * list Route :=
  let resource := resourceOf p in
  let data := match acc.1 !! resource with
              | None => <[resource := []]> acc.1
              | Some _ => acc.1
              end in
  (data, acc.2 ++ ((fun m => mkRoute m p resource) <$> methodsOf item)).

(** [RegisterRoutes] on the table of the store: the table it leaves and
    the routes it adds to the application (the endpoint list it prints is
    left out). *)
Definition RegisterRoutes (paths : gmap string PathItem)
    (data : gmap string (list record))
  : gmap string (list record) * list Route :=
  map_fold registerPath (data, []) paths.

Section Loading.

(** What [json.Unmarshal(b, &s.Data)] leaves in the empty table; its
    error is dropped by [NewStore].  The table stays a map: a file that
    holds only [null], which would leave a nil map, is outside the
    model. *)
Variable json_UnmarshalTable : string -> gmap string (list record).

(** [NewStore], reading from the files of the persistence medium. *)
Definition NewStore (file : string) (fs : gmap string string) : Store :=
  match fs !! file with
  | Some b => mkStore false (json_UnmarshalTable b)
  | None => mkStore false ∅
  end.

End Loading.

(** * Properties *)

(** ** The map loops *)

Lemma assignAll_lookup {V} (src dst : gmap string V) (k : string) :
  assignAll src dst !! k
  = match src !! k with Some v => Some v | None => dst !! k end.
Proof.
  unfold assignAll.
  apply (map_fold_weak_ind
           (fun r (m : gmap string V) =>
              r !! k = match m !! k with Some v => Some v | None => dst !! k end)).
  - by rewrite lookup_empty.
  - intros i x m r Hi IH.
    destruct (decide (i = k)) as [->|Hne].
    + by rewrite !lookup_insert_eq.
    + by rewrite !lookup_insert_ne.
Qed.

Lemma mergeMissing_lookup (p props : gmap string Schema) (k : string) :
  mergeMissing p props !! k
  = match props !! k with Some v => Some v | None => p !! k end.
Proof.
  unfold mergeMissing.
  apply (map_fold_weak_ind
           (fun r (m : gmap string Schema) =>
              r !! k = match props !! k with
                       | Some v => Some v
                       | None => m !! k
                       end)).
  - rewrite lookup_empty. by destruct (props !! k).
  - intros i x m r Hi IH.
    destruct (decide (i = k)) as [->|Hne].
    + rewrite lookup_insert_eq. rewrite Hi in IH.
      destruct (r !! k) as [v|] eqn:Hr; simpl.
      * rewrite Hr. by destruct (props !! k).
      * rewrite lookup_insert_eq. by destruct (props !! k).
    + rewrite lookup_insert_ne by done.
      destruct (r !! i); [done|]. by rewrite lookup_insert_ne.
Qed.

Lemma ownProps_lookup (ps : gmap string (option Schema)) (k : string) :
  ownProps ps !! k = mjoin (ps !! k).
Proof.
  unfold ownProps.
  apply (map_fold_weak_ind
           (fun r (m : gmap string (option Schema)) => r !! k = mjoin (m !! k))).
  - by rewrite !lookup_empty.
  - intros i x m r Hi IH.
    destruct (decide (i = k)) as [->|Hne].
    + rewrite lookup_insert_eq. destruct x as [v|]; simpl.
      * by rewrite lookup_insert_eq.
      * by rewrite IH, Hi.
    + rewrite lookup_insert_ne by done.
      destruct x; [by rewrite lookup_insert_ne|done].
Qed.

(** ** The resolver through its loops *)

Lemma collectFrom_unfold (s : Schema) :
  collectFrom s
  = ((walkAllOf (AllOf s) (Required s, ownProps (Properties s))).1,
     walkAlt (AnyOf s)
       (walkAlt (OneOf s)
          (walkAllOf (AllOf s) (Required s, ownProps (Properties s))).2)).
Proof.
  destruct s as [ty nu mn mx en mi req ps allOf oneOf anyOf]. simpl.
  set (acc0 := (req, ownProps ps)). clearbody acc0.
  set (goAll := fix walkAllOf (subs : list (option Schema))
                    (acc : list string * gmap string Schema) :=
                  match subs with
                  | [] => acc
                  | None :: rest => walkAllOf rest acc
                  | Some sub :: rest =>
                      let '(r, p) := collectFrom sub in
                      walkAllOf rest (acc.1 ++ r, assignAll p acc.2)
                  end).
  set (goAlt := fix walkAlt (subs : list (option Schema))
                    (props : gmap string Schema) :=
                  match subs with
                  | [] => props
                  | None :: rest => walkAlt rest props
                  | Some sub :: rest =>
                      let '(_, p) := collectFrom sub in
                      walkAlt rest (mergeMissing p props)
                  end).
  assert (HAll : forall subs acc, goAll subs acc = walkAllOf subs acc).
  { induction subs as [|[sub|] rest IH]; intros acc; simpl; [done| |done].
    destruct (collectFrom sub) as [r p]. apply IH. }
  assert (HAlt : forall subs props, goAlt subs props = walkAlt subs props).
  { induction subs as [|[sub|] rest IH]; intros props; simpl; [done| |done].
    destruct (collectFrom sub) as [r p]. apply IH. }
  rewrite HAll. destruct (walkAllOf allOf acc0) as [r p]. simpl.
  by rewrite !HAlt.
Qed.

Lemma walkAllOf_required (subs : list (option Schema)) acc :
  (walkAllOf subs acc).1 = acc.1 ++ branchRequired subs.
Proof.
  revert acc. induction subs as [|[sub|] rest IH]; intros acc; simpl.
  - by rewrite app_nil_r.
  - rewrite IH. simpl. by rewrite <- app_assoc.
  - apply IH.
Qed.

Lemma collectFrom_required (s : Schema) :
  (collectFrom s).1 = Required s ++ branchRequired (AllOf s).
Proof. rewrite collectFrom_unfold. simpl. apply walkAllOf_required. Qed.

Lemma elem_of_branchRequired (subs : list (option Schema)) (x : string) :
  x ∈ branchRequired subs <-> exists b, Some b ∈ subs /\ x ∈ (collectFrom b).1.
Proof.
  unfold branchRequired. rewrite list_elem_of_In, in_flat_map. split.
  - intros ([b|] & Hin & Hx); [|by destruct Hx].
    exists b. by rewrite !list_elem_of_In.
  - intros (b & Hin & Hx). exists (Some b). by rewrite <- !list_elem_of_In.
Qed.

(** What is already in the accumulator survives the one-of / any-of walk. *)
Lemma walkAlt_keeps (subs : list (option Schema)) props k v :
  props !! k = Some v -> walkAlt subs props !! k = Some v.
Proof.
  revert props. induction subs as [|[sub|] rest IH]; intros props Hk; simpl.
  - done.
  - apply IH. by rewrite mergeMissing_lookup, Hk.
  - by apply IH.
Qed.

(** A name that the walk defines was in the accumulator or in a branch. *)
Lemma walkAlt_origin (subs : list (option Schema)) props k v :
  walkAlt subs props !! k = Some v ->
  props !! k = Some v
  \/ (props !! k = None /\ exists b, Some b ∈ subs /\ (collectFrom b).2 !! k = Some v).
Proof.
  revert props. induction subs as [|[sub|] rest IH]; intros props Hk; simpl in Hk.
  - by left.
  - apply IH in Hk. rewrite mergeMissing_lookup in Hk.
    destruct (props !! k) as [v0|] eqn:Hp.
    + destruct Hk as [Hk|[Hk _]]; [by left|done].
    + right. split; [done|].
      destruct Hk as [Hk|[_ (b & Hb & Hv)]].
      * exists sub. split; [left|done].
      * exists b. split; [by right|done].
  - apply IH in Hk. destruct Hk as [Hk|[Hn (b & Hb & Hv)]]; [by left|].
    right. split; [done|]. exists b. split; [by right|done].
Qed.

Lemma walkAlt_dom (subs : list (option Schema)) props b k :
  Some b ∈ subs -> is_Some ((collectFrom b).2 !! k) ->
  is_Some (walkAlt subs props !! k).
Proof.
  revert props. induction subs as [|[sub|] rest IH]; intros props Hb Hk.
  - by apply elem_of_nil in Hb.
  - apply elem_of_cons in Hb as [Heq|Hb]; [|by apply IH].
    injection Heq as <-. simpl.
    destruct Hk as [v Hk].
    destruct (props !! k) as [v0|] eqn:Hp.
    + exists v0. apply walkAlt_keeps. by rewrite mergeMissing_lookup, Hp.
    + exists v. apply walkAlt_keeps. by rewrite mergeMissing_lookup, Hp.
  - apply elem_of_cons in Hb as [Heq|Hb]; [done|]. simpl. by apply IH.
Qed.

(** The all-of walk: the last branch that defines a name decides. *)
Lemma walkAllOf_props_dom (subs : list (option Schema)) acc k :
  is_Some (acc.2 !! k) -> is_Some ((walkAllOf subs acc).2 !! k).
Proof.
  revert acc. induction subs as [|[sub|] rest IH]; intros acc Hk; simpl.
  - done.
  - apply IH. simpl. rewrite assignAll_lookup.
    destruct ((collectFrom sub).2 !! k) as [v|]; [by exists v|done].
  - by apply IH.
Qed.

Lemma walkAllOf_props_keep (subs : list (option Schema)) acc k v :
  acc.2 !! k = Some v ->
  (forall b, Some b ∈ subs -> (collectFrom b).2 !! k = None) ->
  (walkAllOf subs acc).2 !! k = Some v.
Proof.
  revert acc. induction subs as [|[sub|] rest IH]; intros acc Hk Hlater; simpl.
  - done.
  - apply IH.
    + simpl. rewrite assignAll_lookup, (Hlater sub); [done|left].
    + intros b Hb. apply Hlater. by right.
  - apply IH; [done|]. intros b Hb. apply Hlater. by right.
Qed.

Lemma walkAllOf_app (pre post : list (option Schema)) acc :
  walkAllOf (pre ++ post) acc = walkAllOf post (walkAllOf pre acc).
Proof.
  revert acc. induction pre as [|[sub|] rest IH]; intros acc; simpl; auto.
Qed.

(** ** Claims on the schema constraint resolver *)

(** C4.  For every schema node the resolved required list is the node's
    own required list followed by the contributions of its all-of
    branches, so a required name always comes from the node or from an
    all-of branch and never from a one-of or any-of branch; and the walk
    over the one-of and any-of branches is first-writer-wins: an entry of
    the accumulator built from the node and its all-of branches is never
    replaced, an entry that was not in that accumulator comes from a
    branch and stands under a name the accumulator did not have, and one
    merge step keeps what is present and adds only what is absent. *)
Theorem alternatives_first_writer_wins (s : Schema) :
  let base := walkAllOf (AllOf s) (Required s, ownProps (Properties s)) in
  (collectSchemaConstraints (Some s)).1 = Required s ++ branchRequired (AllOf s)
  /\ (forall x, x ∈ (collectSchemaConstraints (Some s)).1 ->
        x ∈ Required s
        \/ exists b, Some b ∈ AllOf s /\ x ∈ (collectSchemaConstraints (Some b)).1)
  /\ (collectSchemaConstraints (Some s)).2
     = walkAlt (AnyOf s) (walkAlt (OneOf s) base.2)
  /\ (forall k v, base.2 !! k = Some v ->
        (collectSchemaConstraints (Some s)).2 !! k = Some v)
  /\ (forall k v, (collectSchemaConstraints (Some s)).2 !! k = Some v ->
        base.2 !! k = Some v
        \/ (base.2 !! k = None
            /\ exists b, (Some b ∈ OneOf s \/ Some b ∈ AnyOf s)
                         /\ (collectSchemaConstraints (Some b)).2 !! k = Some v))
  /\ (forall p props k,
        mergeMissing p props !! k
        = match props !! k with Some v => Some v | None => p !! k end).
Proof.
  intros base. unfold collectSchemaConstraints.
  split; [apply collectFrom_required|].
  split.
  { intros x. rewrite collectFrom_required, elem_of_app, elem_of_branchRequired.
    tauto. }
  split; [by rewrite collectFrom_unfold|].
  split.
  { intros k v Hk. rewrite collectFrom_unfold. simpl.
    by do 2 apply walkAlt_keeps. }
  split; [|apply mergeMissing_lookup].
  intros k v Hk. rewrite collectFrom_unfold in Hk. simpl in Hk.
  apply walkAlt_origin in Hk as [Hk|[Hn (b & Hb & Hv)]].
  - apply walkAlt_origin in Hk as [Hk|[Hn (b & Hb & Hv)]]; [by left|].
    right. split; [done|]. exists b. auto.
  - right. split.
    + destruct (base.2 !! k) as [v0|] eqn:Hbase; [|done].
      by rewrite (walkAlt_keeps _ _ _ _ Hbase) in Hn.
    + exists b. auto.
Qed.

(** C5 (counterexample).  The schema that requires [name] itself and
    through its all-of branch resolves to a required list with [name]
    twice. *)
Lemma required_list_not_deduplicated :
  (collectSchemaConstraints (Some dupSchema)).1 = ["name"; "name"]
  /\ ~ NoDup (collectSchemaConstraints (Some dupSchema)).1.
Proof.
  assert (H : (collectSchemaConstraints (Some dupSchema)).1 = ["name"; "name"])
    by (vm_compute; reflexivity).
  split; [exact H|]. rewrite H. intros Hnd.
  apply NoDup_cons in Hnd as [Hnot _]. apply Hnot. left.
Qed.

(** C5 (amended).  The resolved required list is the node's own required
    list followed by the resolved lists of its all-of branches, in order
    and as they are: a name required by the node and again by an all-of
    branch occurs more than once. *)
Theorem required_list_is_concatenation (s b : Schema) (n : string) :
  Some b ∈ AllOf s ->
  n ∈ Required s ->
  n ∈ (collectSchemaConstraints (Some b)).1 ->
  (collectSchemaConstraints (Some s)).1 = Required s ++ branchRequired (AllOf s)
  /\ ~ NoDup (collectSchemaConstraints (Some s)).1.
Proof.
  intros Hb Hown Hbranch. unfold collectSchemaConstraints in *.
  split; [apply collectFrom_required|].
  rewrite collectFrom_required. intros Hnd.
  apply NoDup_app in Hnd as (_ & Hdisj & _).
  apply (Hdisj n Hown), elem_of_branchRequired. eauto.
Qed.

Lemma required_list_is_concatenation_witness :
  (collectSchemaConstraints (Some dupSchema)).1
  = Required dupSchema ++ branchRequired (AllOf dupSchema)
  /\ ~ NoDup (collectSchemaConstraints (Some dupSchema)).1.
Proof.
  apply (required_list_is_concatenation dupSchema
           (objectSchema ["name"] ∅ [] [] []) "name").
  - left.
  - left.
  - vm_compute. left.
Defined.

(** C6 (counterexample).  Both all-of branches of [clashSchema] declare
    [x]; the first branch resolves [x] to the string schema, the node
    resolves it to the integer schema of the second branch, so the first
    branch's resolved properties are not included in the node's. *)
Lemma allOf_properties_overwritten :
  (collectSchemaConstraints (Some branchString)).2 !! "x"
  = Some (typedSchema "string" 0)
  /\ (collectSchemaConstraints (Some clashSchema)).2 !! "x"
     = Some (typedSchema "integer" 0)
  /\ ~ ((collectSchemaConstraints (Some branchString)).2
        ⊆ (collectSchemaConstraints (Some clashSchema)).2).
Proof.
  assert (H1 : (collectSchemaConstraints (Some branchString)).2 !! "x"
               = Some (typedSchema "string" 0)) by (vm_compute; reflexivity).
  assert (H2 : (collectSchemaConstraints (Some clashSchema)).2 !! "x"
               = Some (typedSchema "integer" 0)) by (vm_compute; reflexivity).
  split; [exact H1|]. split; [exact H2|].
  intros Hsub.
  pose proof (lookup_weaken _ _ _ _ H1 Hsub) as H3.
  rewrite H2 in H3.
  apply (f_equal (fmap Type_)) in H3. vm_compute in H3. discriminate H3.
Qed.

(** C6 (amended).  For a schema with an all-of branch [b]: every name of
    the node's own required list and every name of [b]'s resolved required
    list is in the node's resolved required list; every property name that
    [b] resolves is a property name of the node's resolution; and the
    node keeps [b]'s schema for that name when no later all-of branch
    resolves the same name (a later branch overwrites an earlier one). *)
Theorem allOf_union (s b : Schema) (pre post : list (option Schema)) :
  AllOf s = pre ++ Some b :: post ->
  (forall x, x ∈ Required s -> x ∈ (collectSchemaConstraints (Some s)).1)
  /\ (forall x, x ∈ (collectSchemaConstraints (Some b)).1 ->
        x ∈ (collectSchemaConstraints (Some s)).1)
  /\ (forall k, is_Some ((collectSchemaConstraints (Some b)).2 !! k) ->
        is_Some ((collectSchemaConstraints (Some s)).2 !! k))
  /\ (forall k v,
        (collectSchemaConstraints (Some b)).2 !! k = Some v ->
        (forall b', Some b' ∈ post ->
                    (collectSchemaConstraints (Some b')).2 !! k = None) ->
        (collectSchemaConstraints (Some s)).2 !! k = Some v).
Proof.
  intros Hall. unfold collectSchemaConstraints.
  assert (Hin : Some b ∈ AllOf s).
  { rewrite Hall. apply elem_of_app. right. left. }
  assert (Hstep : forall k v acc,
             (collectFrom b).2 !! k = Some v ->
             (walkAllOf (pre ++ Some b :: post) acc).2 !! k
             = (walkAllOf post
                  ((walkAllOf pre acc).1 ++ (collectFrom b).1,
                   assignAll (collectFrom b).2 (walkAllOf pre acc).2)).2 !! k).
  { intros k v acc _. by rewrite walkAllOf_app. }
  split.
  { intros x Hx. rewrite collectFrom_required. apply elem_of_app. by left. }
  split.
  { intros x Hx. rewrite collectFrom_required. apply elem_of_app. right.
    apply elem_of_branchRequired. eauto. }
  split.
  { intros k [v Hk]. rewrite collectFrom_unfold. simpl.
    assert (Hbase : is_Some
              ((walkAllOf (AllOf s) (Required s, ownProps (Properties s))).2 !! k)).
    { rewrite Hall, (Hstep k v _ Hk). apply walkAllOf_props_dom. simpl.
      rewrite assignAll_lookup, Hk. by eexists. }
    destruct Hbase as [v' Hv']. exists v'. by do 2 apply walkAlt_keeps. }
  intros k v Hk Hlater. rewrite collectFrom_unfold. simpl.
  do 2 apply walkAlt_keeps.
  rewrite Hall, (Hstep k v _ Hk). apply walkAllOf_props_keep; [|done].
  simpl. by rewrite assignAll_lookup, Hk.
Qed.

Lemma allOf_union_witness :
  (forall x, x ∈ Required clashSchema ->
             x ∈ (collectSchemaConstraints (Some clashSchema)).1)
  /\ (forall x, x ∈ (collectSchemaConstraints (Some branchInteger)).1 ->
        x ∈ (collectSchemaConstraints (Some clashSchema)).1)
  /\ (forall k, is_Some ((collectSchemaConstraints (Some branchInteger)).2 !! k) ->
        is_Some ((collectSchemaConstraints (Some clashSchema)).2 !! k))
  /\ (forall k v,
        (collectSchemaConstraints (Some branchInteger)).2 !! k = Some v ->
        (forall b', Some b' ∈ [] ->
                    (collectSchemaConstraints (Some b')).2 !! k = None) ->
        (collectSchemaConstraints (Some clashSchema)).2 !! k = Some v).
Proof.
  apply (allOf_union clashSchema branchInteger [Some branchString] []).
  reflexivity.
Defined.

(** ** Claims on the security evaluator *)

Lemma isAuthenticated_table (d : T) (comps : Components)
    (schemes : gmap string (option SecurityScheme)) (c : Ctx)
    (reqs : list SecurityRequirement) :
  docComponents d = Some comps ->
  SecuritySchemes comps = Some schemes ->
  isAuthenticated (Some d) c reqs
  = existsb (fun req => Nat.eqb (size req) 0 || requirementSatisfied schemes c req)
            reqs.
Proof.
  intros Hc Hs. unfold isAuthenticated. rewrite Hc, Hs.
  induction reqs as [|req rest IH]; simpl; [done|].
  destruct (Nat.eqb (size req) 0); [done|]. simpl.
  by destruct (requirementSatisfied schemes c req).
Qed.

Lemma isAuthenticated_no_table (doc : option T) (c : Ctx)
    (reqs : list SecurityRequirement) :
  hasSchemeTable doc = false -> isAuthenticated doc c reqs = false.
Proof.
  unfold hasSchemeTable, isAuthenticated.
  destruct doc as [d|]; [|done].
  destruct (docComponents d) as [comps|]; [|done].
  by destruct (SecuritySchemes comps).
Qed.

(** With an empty requirement in the list, the answer of the evaluator
    is the answer of the guard at its head. *)
Lemma isAuthenticated_with_empty_requirement (doc : option T) (c : Ctx)
    (reqs : list SecurityRequirement) :
  ∅ ∈ reqs ->
  isAuthenticated doc c reqs = hasSchemeTable doc.
Proof.
  intros Hin.
  destruct (hasSchemeTable doc) eqn:Htab;
    [|by apply isAuthenticated_no_table].
  unfold hasSchemeTable in Htab.
  destruct doc as [d|]; [|done].
  destruct (docComponents d) as [comps|] eqn:Hc; [|done].
  destruct (SecuritySchemes comps) as [schemes|] eqn:Hs; [|done].
  rewrite (isAuthenticated_table d comps schemes c reqs Hc Hs).
  apply existsb_exists. exists ∅. split; [by apply list_elem_of_In|].
  by rewrite map_size_empty.
Qed.

(** C7 (the code at the failing input).  The document-wide security
    list holds one empty requirement and the document declares no table
    of security schemes.  The guard at the head of the evaluator answers
    false before the empty requirement is looked at, and the handler
    rejects the request with 401, although an empty requirement means
    that no authentication is needed.  With a table, even an empty one,
    the same request is served.  In general, with an empty requirement
    in the list, the evaluator's answer is that of the guard. *)
Theorem empty_requirement_rejected_by_guard
    (json_Unmarshal : string -> string + record) (fmt_v : value -> string)
    (json_MarshalIndent : gmap string (list record) -> string) :
  resolveSecurityRequirements (Some docOpen)
    (operationForPathMethod (Some docOpen) "/widgets" MethodGet) = [∅]
  /\ isAuthenticated (Some docOpen) (bareCtx "/widgets") [∅] = false
  /\ handle json_Unmarshal fmt_v json_MarshalIndent (Some docOpen)
            (bareCtx "/widgets") MethodGet "widgets" "data.json" emptyWorld
     = Returns (validationError 401 "Invalid security scheme used") emptyWorld
  /\ handle json_Unmarshal fmt_v json_MarshalIndent (Some docOpenWithTable)
            (bareCtx "/widgets") MethodGet "widgets" "data.json" emptyWorld
     = Returns (RespJSON 200 (VArr [])) emptyWorld
  /\ forall doc c reqs,
       ∅ ∈ reqs -> isAuthenticated doc c reqs = hasSchemeTable doc.
Proof.
  split; [vm_compute; reflexivity|].
  split; [vm_compute; reflexivity|].
  split; [vm_compute; reflexivity|].
  split; [vm_compute; reflexivity|].
  intros doc c reqs. apply isAuthenticated_with_empty_requirement.
Qed.

Lemma schemeSatisfied_bearer (c : Ctx) (scheme : SecurityScheme) :
  schemeType scheme = "http" ->
  EqualFold (schemeScheme scheme) "bearer" = true ->
  schemeSatisfied c scheme
  = negb (String.eqb (Get c "Authorization") "")
    && (HasPrefix (Get c "Authorization") "Bearer "
        || HasPrefix (Get c "Authorization") "bearer ").
Proof.
  intros Hty Hfold. unfold schemeSatisfied. rewrite Hty, Hfold. simpl.
  destruct (String.eqb (Get c "Authorization") ""); [done|]. simpl.
  by destruct (HasPrefix (Get c "Authorization") "Bearer "),
              (HasPrefix (Get c "Authorization") "bearer ").
Qed.

Lemma isAuthenticated_single (d : T) (comps : Components)
    (schemes : gmap string (option SecurityScheme)) (n : string)
    (scopes : list string) (scheme : SecurityScheme) (c : Ctx) :
  docComponents d = Some comps ->
  SecuritySchemes comps = Some schemes ->
  schemes !! n = Some (Some scheme) ->
  isAuthenticated (Some d) c [{[ n := scopes ]}] = schemeSatisfied c scheme.
Proof.
  intros Hc Hs Hn.
  rewrite (isAuthenticated_table d comps schemes c _ Hc Hs). simpl.
  rewrite map_size_singleton. simpl.
  unfold requirementSatisfied. rewrite map_to_list_singleton. simpl.
  rewrite Hn. by destruct (schemeSatisfied c scheme).
Qed.

(** C8 (counterexample).  The header value "BEARER abc" is present and
    starts with "Bearer " when letters are compared without regard to
    case, yet the bearer scheme is not satisfied and the evaluator rejects
    the request. *)
Lemma bearer_prefix_is_case_sensitive :
  Get (withAuthorization "BEARER abc") "Authorization" = "BEARER abc"
  /\ hasPrefixFold (Get (withAuthorization "BEARER abc") "Authorization")
                   "Bearer " = true
  /\ schemeSatisfied (withAuthorization "BEARER abc") bearerScheme = false
  /\ isAuthenticated (Some docBearer) (withAuthorization "BEARER abc")
                     [{[ "auth" := [] ]}] = false.
Proof. repeat split; vm_compute; reflexivity. Qed.

(** C8 (amended).  For an http security scheme whose sub-kind equals
    "bearer" up to case, declared by the document under a name that is the
    only scheme of the only alternative, the evaluator returns satisfied
    if and only if the Authorization header is present (not empty) and its
    value starts with exactly "Bearer " or exactly "bearer ". *)
Theorem bearer_scheme_satisfied (d : T) (comps : Components)
    (schemes : gmap string (option SecurityScheme)) (n : string)
    (scopes : list string) (scheme : SecurityScheme) (c : Ctx) :
  docComponents d = Some comps ->
  SecuritySchemes comps = Some schemes ->
  schemes !! n = Some (Some scheme) ->
  schemeType scheme = "http" ->
  EqualFold (schemeScheme scheme) "bearer" = true ->
  isAuthenticated (Some d) c [{[ n := scopes ]}] = true
  <-> Get c "Authorization" <> EmptyString
      /\ (HasPrefix (Get c "Authorization") "Bearer " = true
          \/ HasPrefix (Get c "Authorization") "bearer " = true).
Proof.
  intros Hc Hs Hn Hty Hfold.
  rewrite (isAuthenticated_single d comps schemes n scopes scheme c Hc Hs Hn).
  rewrite (schemeSatisfied_bearer c scheme Hty Hfold).
  rewrite andb_true_iff, orb_true_iff, negb_true_iff.
  split; intros [Hne Hpre]; (split; [|exact Hpre]).
  - intros Heq. rewrite Heq in Hne. discriminate Hne.
  - by apply String.eqb_neq.
Qed.

Lemma bearer_scheme_satisfied_witness :
  isAuthenticated (Some docBearer) (withAuthorization "Bearer abc")
                  [{[ "auth" := ["read"] ]}] = true
  <-> Get (withAuthorization "Bearer abc") "Authorization" <> EmptyString
      /\ (HasPrefix (Get (withAuthorization "Bearer abc") "Authorization")
                    "Bearer " = true
          \/ HasPrefix (Get (withAuthorization "Bearer abc") "Authorization")
                       "bearer " = true).
Proof.
  apply (bearer_scheme_satisfied docBearer
           (mkComponents (Some {[ "auth" := Some bearerScheme ]}))
           {[ "auth" := Some bearerScheme ]} "auth" ["read"] bearerScheme
           (withAuthorization "Bearer abc"));
    reflexivity.
Defined.

(** ** Claim on body validation *)

(** C9.  Against the schema that requires [name] and declares it a string
    of minimum length 3, and with the decoder giving the decoded objects
    of the three bodies: the body with no member yields exactly the
    violation of the missing required property [name]; the body whose
    [name] is "ab" yields exactly the violation of the minimum length; the
    body whose [name] is "abc" yields no violation. *)
Theorem name_schema_violations
    (json_Unmarshal : string -> string + record) (fmt_v : value -> string) :
  json_Unmarshal "{}" = inr ∅ ->
  json_Unmarshal (nameBody "ab") = inr {[ "name" := VString "ab" ]} ->
  json_Unmarshal (nameBody "abc") = inr {[ "name" := VString "abc" ]} ->
  validateBody json_Unmarshal fmt_v "{}" (Some nameSchema)
  = ["request.body Request body must have required property 'name'"]
  /\ validateBody json_Unmarshal fmt_v (nameBody "ab") (Some nameSchema)
     = ["request.body Property " +:+ dquote +:+ "name" +:+ dquote
          +:+ " must be at least 3 characters"]
  /\ validateBody json_Unmarshal fmt_v (nameBody "abc") (Some nameSchema) = [].
Proof.
  intros H0 H2 H3. unfold validateBody. rewrite H0, H2, H3.
  repeat split; vm_compute; reflexivity.
Qed.

Lemma name_schema_violations_witness :
  validateBody sampleUnmarshal (fun _ => EmptyString) "{}" (Some nameSchema)
  = ["request.body Request body must have required property 'name'"]
  /\ validateBody sampleUnmarshal (fun _ => EmptyString) (nameBody "ab")
                  (Some nameSchema)
     = ["request.body Property " +:+ dquote +:+ "name" +:+ dquote
          +:+ " must be at least 3 characters"]
  /\ validateBody sampleUnmarshal (fun _ => EmptyString) (nameBody "abc")
                  (Some nameSchema) = [].
Proof.
  apply (name_schema_violations sampleUnmarshal (fun _ => EmptyString));
    reflexivity.
Defined.

(** ** The store: mutex, persistence and the mock responses *)

Section StoreFacts.

Variable json_Unmarshal : string -> string + record.
Variable fmt_v : value -> string.
Variable json_MarshalIndent : gmap string (list record) -> string.

Lemma recordsOf_setMu (b : bool) (w : World) (r : string) :
  recordsOf (setMu b w) r = recordsOf w r.
Proof. done. Qed.

Lemma recordsOf_ensureList (resource : string) (w : World) (r : string) :
  recordsOf (ensureList resource w) r = recordsOf w r.
Proof.
  unfold ensureList, recordsOf.
  destruct (Data (store w) !! resource) eqn:Hl; [done|]. simpl.
  destruct (decide (resource = r)) as [->|Hne].
  - by rewrite lookup_insert_eq, Hl.
  - by rewrite lookup_insert_ne.
Qed.

Lemma mu_ensureList (resource : string) (w : World) :
  mu (store (ensureList resource w)) = mu (store w).
Proof. unfold ensureList. by destruct (Data (store w) !! resource). Qed.

Lemma files_ensureList (resource : string) (w : World) :
  files (ensureList resource w) = files w.
Proof. unfold ensureList. by destruct (Data (store w) !! resource). Qed.

(** [Save] called with the mutex held never gets past its own [Lock]. *)
Lemma Save_locked (file : string) (w : World) :
  mu (store w) = true -> Save json_MarshalIndent file w = Blocks w.
Proof. intros Hmu. unfold Save, bind, Lock. by rewrite Hmu. Qed.

Lemma saveStore_locked (dataFile : string) (w : World) :
  mu (store w) = true -> saveStore json_MarshalIndent dataFile w = Blocks w.
Proof.
  intros Hmu. unfold saveStore.
  destruct (String.eqb dataFile ""); by apply Save_locked.
Qed.

(** Called with the mutex free, [Save] writes the serialized table. *)
Lemma Save_free (file : string) (w : World) :
  mu (store w) = false ->
  Save json_MarshalIndent file w
  = Returns tt (mkWorld (store w)
                  (<[file := json_MarshalIndent (Data (store w))]> (files w))).
Proof.
  intros Hmu. unfold Save, bind, Lock, defer, Unlock. rewrite Hmu. simpl.
  destruct w as [[m d] f]. simpl in *. by subst m.
Qed.

Lemma saveStore_data (dataFile : string) (w : World) :
  Data (store (world_of (saveStore json_MarshalIndent dataFile w)))
  = Data (store w).
Proof.
  unfold saveStore.
  destruct (mu (store w)) eqn:Hmu.
  - destruct (String.eqb dataFile ""); by rewrite Save_locked.
  - destruct (String.eqb dataFile ""); by rewrite Save_free.
Qed.

(** What the mock response step does when the handler holds the mutex:
    it returns or panics without touching any list, or it has changed the
    list of its resource in memory and waits for ever inside [Save]. *)
Lemma mockResponse_locked (c : Ctx) (method resource dataFile : string)
    (w : World) :
  mu (store w) = true ->
  match mockResponse json_MarshalIndent c method resource dataFile w with
  | Returns _ w' | Panics w' => w' = ensureList resource w
  | Blocks w' =>
      mu (store w') = true /\ files w' = files w
      /\ exists l',
           Data (store w') = <[resource := l']> (Data (store (ensureList resource w)))
           /\ ((method = MethodPost
                /\ l' = recordsOf w resource
                          ++ [<["id" := VInt (Z.of_nat (length (recordsOf w resource)) + 1)]>
                                (BodyParser c)])
               \/ exists i item,
                    findItem (Atoi (Params c "id")) (recordsOf w resource) 0
                    = Found i item)
  end.
Proof.
  intros Hmu. unfold mockResponse.
  pose proof (mu_ensureList resource w) as Hmu1. rewrite Hmu in Hmu1.
  pose proof (files_ensureList resource w) as Hf1.
  pose proof (recordsOf_ensureList resource w resource) as Hl1.
  unfold recordsOf in Hl1 at 1.
  set (w1 := ensureList resource w) in *. clearbody w1.
  rewrite Hl1. set (list := recordsOf w resource) in *. clearbody list.
  destruct (String.eqb method MethodGet).
  { destruct (0 <? Atoi (Params c "id")); [|done].
    by destruct (findItem (Atoi (Params c "id")) list 0). }
  destruct (String.eqb method MethodPost) eqn:Hpost.
  { apply String.eqb_eq in Hpost.
    destruct (parsedBody c) as [body|] eqn:Hb; [|done].
    unfold bind. rewrite saveStore_locked by done. simpl.
    split; [done|]. split; [done|]. eexists. split; [done|]. left.
    split; [done|]. unfold BodyParser. by rewrite Hb. }
  destruct (String.eqb method MethodPut || String.eqb method MethodPatch).
  { destruct (findItem (Atoi (Params c "id")) list 0) as [i item| |] eqn:Hfind;
      [|done|done].
    unfold bind. rewrite saveStore_locked by done. simpl.
    split; [done|]. split; [done|]. eexists. split; [done|]. right. eauto. }
  destruct (String.eqb method MethodDelete); [|done].
  destruct (findItem (Atoi (Params c "id")) list 0) as [i item| |] eqn:Hfind;
    [|done|done].
  unfold bind. rewrite saveStore_locked by done. simpl.
  split; [done|]. split; [done|]. eexists. split; [done|]. right. eauto.
Qed.

(** The three ways a call of [handle] ends. *)
Lemma handle_cases (doc : option T) (c : Ctx)
    (method resource dataFile : string) (w : World) :
  let o := handle json_Unmarshal fmt_v json_MarshalIndent doc c method
                  resource dataFile w in
  (exists r, o = Returns r w)
  \/ (mu (store w) = true /\ o = Blocks w)
  \/ (mu (store w) = false
      /\ o = defer Unlock
               (mockResponse json_MarshalIndent c method resource dataFile)
               (setMu true w)).
Proof.
  unfold handle.
  destruct (securityStep _ _ _) as [r|]; [left; by eexists|].
  destruct (contentStep _ _ _ _ _) as [r|]; [left; by eexists|].
  destruct (paramStep _ _) as [r|]; [left; by eexists|].
  right. unfold bind, Lock.
  destruct (mu (store w)) eqn:Hmu; [by left|by right].
Qed.

Lemma handle_free (doc : option T) (c : Ctx)
    (method resource dataFile : string) (w : World) :
  mu (store w) = false ->
  let o := handle json_Unmarshal fmt_v json_MarshalIndent doc c method
                  resource dataFile w in
  (exists r, o = Returns r w)
  \/ (exists r, o = Returns r (setMu false (ensureList resource (setMu true w))))
  \/ o = Panics (setMu false (ensureList resource (setMu true w)))
  \/ exists w',
       o = Blocks w' /\ mu (store w') = true /\ files w' = files w
       /\ exists l',
            Data (store w')
            = <[resource := l']> (Data (store (ensureList resource (setMu true w))))
            /\ ((method = MethodPost
                 /\ l' = recordsOf w resource
                           ++ [<["id" := VInt (Z.of_nat (length (recordsOf w resource)) + 1)]>
                                 (BodyParser c)])
                \/ exists i item,
                     findItem (Atoi (Params c "id")) (recordsOf w resource) 0
                     = Found i item).
Proof.
  intros Hmu o.
  destruct (handle_cases doc c method resource dataFile w)
    as [Hret|[[Hlocked _]|[_ Ho]]]; [by left|congruence|].
  fold o in Ho. rewrite Ho. unfold defer.
  pose proof (mockResponse_locked c method resource dataFile (setMu true w)
                eq_refl) as Hm.
  pose proof (mu_ensureList resource (setMu true w)) as Hmu1. simpl in Hmu1.
  destruct (mockResponse json_MarshalIndent c method resource dataFile
              (setMu true w)) as [r w'|w'|w'].
  - subst w'. unfold Unlock. rewrite Hmu1. right. left. by eexists.
  - subst w'. unfold Unlock. rewrite Hmu1. right. right. by left.
  - right. right. right. exists w'. split; [done|].
    destruct Hm as (Hm1 & Hm2 & l' & Hd & Hl). split; [done|].
    split; [done|]. exists l'. split; [done|].
    by rewrite recordsOf_setMu in Hl.
Qed.

End StoreFacts.

(** ** Claims on the store and the mock responses *)




(** C1 (the code at the failing input).  On the store with an empty
    [widgets] list, the create of [{color: red}] puts the record with the
    [int] 1 under "id" in the in-memory list and then waits for ever:
    [Save] locks the mutex that [handle] holds, so no record is returned
    and no file is written.  The get-by-id(1) that follows waits on the
    same mutex.  Were the mutex free, the lookup would panic on its type
    assertion, since the id that the create stored is an [int] and not a
    [float64]. *)
Theorem create_blocks_then_lookup_panics
    (json_Unmarshal : string -> string + record) (fmt_v : value -> string)
    (json_MarshalIndent : gmap string (list record) -> string) :
  handle json_Unmarshal fmt_v json_MarshalIndent (Some widgetsDoc) createRed
         MethodPost "widgets" "data.json" emptyWorld
  = Blocks wedgedWorld
  /\ recordsOf wedgedWorld "widgets" = [redRecord]
  /\ redRecord !! "id" = Some (VInt 1)
  /\ redRecord !! "color" = Some (VString "red")
  /\ files wedgedWorld = ∅
  /\ handle json_Unmarshal fmt_v json_MarshalIndent (Some widgetsDoc)
            (byId "1") MethodGet "widgets" "data.json" wedgedWorld
     = Blocks wedgedWorld
  /\ findItem 1 [redRecord] 0 = AssertPanic
  /\ handle json_Unmarshal fmt_v json_MarshalIndent (Some widgetsDoc)
            (byId "1") MethodGet "widgets" "data.json" (setMu false wedgedWorld)
     = Panics (setMu false wedgedWorld).
Proof. repeat split; vm_compute; reflexivity. Qed.

(** C2 (the code on every input).  No call of [handle] writes a file, and
    a call that returns has left every record list as it found it: a call
    that changes a list goes on to [Save], which waits for ever on the
    mutex the call itself holds.  At the failing input the create ends
    blocked with the record in memory and nothing on the persistence
    medium. *)
Theorem handle_never_persists
    (json_Unmarshal : string -> string + record) (fmt_v : value -> string)
    (json_MarshalIndent : gmap string (list record) -> string)
    (doc : option T) (c : Ctx) (method resource dataFile : string)
    (w : World) :
  files (world_of (handle json_Unmarshal fmt_v json_MarshalIndent doc c
                          method resource dataFile w)) = files w
  /\ (forall r w',
        handle json_Unmarshal fmt_v json_MarshalIndent doc c method resource
               dataFile w = Returns r w' ->
        forall res, recordsOf w' res = recordsOf w res)
  /\ handle json_Unmarshal fmt_v json_MarshalIndent (Some widgetsDoc)
            createRed MethodPost "widgets" "data.json" emptyWorld
     = Blocks wedgedWorld
  /\ files wedgedWorld = files emptyWorld.
Proof.
  split; [|split; [|split; vm_compute; reflexivity]].
  - destruct (mu (store w)) eqn:Hm.
    + destruct (handle_cases json_Unmarshal fmt_v json_MarshalIndent doc c
                  method resource dataFile w) as [[r Ho]|[[_ Ho]|[Hf _]]];
        [| |congruence]; simpl in Ho; by rewrite Ho.
    + destruct (handle_free json_Unmarshal fmt_v json_MarshalIndent doc c
                  method resource dataFile w Hm)
        as [[r Ho]|[[r Ho]|[Ho|(w' & Ho & _ & Hf & _)]]];
        simpl in Ho; rewrite Ho; simpl; try done;
        by rewrite files_ensureList.
  - intros r w' Hret res.
    destruct (mu (store w)) eqn:Hm.
    + destruct (handle_cases json_Unmarshal fmt_v json_MarshalIndent doc c
                  method resource dataFile w) as [[r0 Ho]|[[_ Ho]|[Hf _]]];
        [| |congruence]; simpl in Ho; rewrite Ho in Hret;
        [by injection Hret as _ <-|discriminate Hret].
    + destruct (handle_free json_Unmarshal fmt_v json_MarshalIndent doc c
                  method resource dataFile w Hm)
        as [[r0 Ho]|[[r0 Ho]|[Ho|(w0 & Ho & _)]]];
        simpl in Ho; rewrite Ho in Hret; try discriminate Hret;
        injection Hret as _ <-; [done|].
      by rewrite recordsOf_setMu, recordsOf_ensureList, recordsOf_setMu.
Qed.

(** ** Claim on the list response *)

Lemma Atoi_absent : Atoi EmptyString = 0.
Proof. reflexivity. Qed.

(** A text in which, after the optional sign, a byte that is not a digit
    is met before the digits overflow reads as 0: the syntax error is
    dropped. *)
Lemma Atoi_not_numeric (s : string) :
  parseUint 0 (splitSign s).2 = SyntaxError -> Atoi s = 0.
Proof.
  intros Hp. unfold Atoi.
  destruct (splitSign s) as [neg ds]. simpl in Hp. rewrite Hp.
  by destruct ds.
Qed.

Lemma contentStep_get (json_Unmarshal : string -> string + record)
    (fmt_v : value -> string) (operation : option Operation) (c : Ctx) :
  contentStep json_Unmarshal fmt_v operation MethodGet c = None.
Proof. unfold contentStep. by destruct operation. Qed.

Lemma unlock_after_ensureList (resource : string) (w : World) :
  mu (store w) = false ->
  setMu false (ensureList resource (setMu true w)) = ensureList resource w.
Proof.
  destruct w as [[m d] f]. simpl. intros ->.
  unfold ensureList. simpl. by destruct (d !! resource).
Qed.

(** C10 (counterexample).  GET on the get-by-identifier route with the
    [id] parameter absent: the operation declares [id] as a required path
    parameter, so the handler answers 400 at the parameter step and the
    record list is not returned. *)
Lemma get_without_id_rejected :
  Params (byId EmptyString) "id" = EmptyString
  /\ handle sampleUnmarshal noFmt noMarshal (Some widgetsDoc)
            (byId EmptyString) MethodGet "widgets" "data.json" emptyWorld
     = Returns (validationError 400
                  ("Required path parameter " +:+ dquote +:+ "id" +:+ dquote
                     +:+ " is missing"))
               emptyWorld.
Proof. split; vm_compute; reflexivity. Qed.

(** C10 (amended).  For every GET request that passes the security step
    and the required-parameter step and finds the store's mutex free, and
    whose [id] path parameter reads as an integer that is not positive
    (an absent text reads as 0, and so does a text in which a byte that
    is not a digit comes before any overflow), the handler returns the
    resource's entire record list with status 200, not a not-found
    outcome. *)
Theorem get_without_positive_id_lists
    (json_Unmarshal : string -> string + record) (fmt_v : value -> string)
    (json_MarshalIndent : gmap string (list record) -> string)
    (doc : option T) (c : Ctx) (resource dataFile : string) (w : World) :
  securityStep doc (operationForPathMethod doc (RoutePath c) MethodGet) c = None ->
  paramStep (from_option opParameters []
               (operationForPathMethod doc (RoutePath c) MethodGet)) c = None ->
  mu (store w) = false ->
  Atoi (Params c "id") <= 0 ->
  handle json_Unmarshal fmt_v json_MarshalIndent doc c MethodGet resource
         dataFile w
  = Returns (RespJSON 200 (VArr (VObj <$> recordsOf w resource)))
            (ensureList resource w).
Proof.
  intros Hsec Hpar Hmu Hid. unfold handle.
  rewrite Hsec, contentStep_get, Hpar.
  unfold bind, Lock. rewrite Hmu. unfold defer, mockResponse.
  change (String.eqb MethodGet MethodGet) with true. cbv iota.
  assert (Hlt : (0 <? Atoi (Params c "id")) = false) by (apply Z.ltb_ge; lia).
  rewrite Hlt.
  pose proof (recordsOf_ensureList resource (setMu true w) resource) as Hl.
  unfold recordsOf in Hl at 1. rewrite Hl, recordsOf_setMu.
  unfold Unlock. rewrite mu_ensureList. simpl.
  by rewrite unlock_after_ensureList.
Qed.

Lemma get_without_positive_id_lists_witness :
  handle sampleUnmarshal noFmt noMarshal (Some widgetsDoc) (byId "abc")
         MethodGet "widgets" "data.json" emptyWorld
  = Returns (RespJSON 200 (VArr (VObj <$> recordsOf emptyWorld "widgets")))
            (ensureList "widgets" emptyWorld).
Proof.
  apply (get_without_positive_id_lists sampleUnmarshal noFmt noMarshal
           (Some widgetsDoc) (byId "abc") "widgets" "data.json" emptyWorld).
  - reflexivity.
  - reflexivity.
  - reflexivity.
  - vm_compute. discriminate.
Defined.

(** * Further properties of the code *)

(** ** The resolver *)

Lemma walkAllOf_origin (subs : list (option Schema)) acc k v :
  (walkAllOf subs acc).2 !! k = Some v ->
  acc.2 !! k = Some v
  \/ exists b, Some b ∈ subs /\ (collectFrom b).2 !! k = Some v.
Proof.
  revert acc. induction subs as [|[sub|] rest IH]; intros acc Hk; simpl in Hk.
  - by left.
  - apply IH in Hk as [Hk|(b & Hb & Hv)].
    + simpl in Hk. rewrite assignAll_lookup in Hk.
      destruct ((collectFrom sub).2 !! k) as [v0|] eqn:Hs.
      * right. exists sub. split; [left|congruence].
      * by left.
    + right. exists b. split; [by right|done].
  - apply IH in Hk as [Hk|(b & Hb & Hv)]; [by left|].
    right. exists b. split; [by right|done].
Qed.

Lemma walkAllOf_branch_dom (subs : list (option Schema)) acc b k :
  Some b ∈ subs -> is_Some ((collectFrom b).2 !! k) ->
  is_Some ((walkAllOf subs acc).2 !! k).
Proof.
  revert acc. induction subs as [|[sub|] rest IH]; intros acc Hb Hk.
  - by apply elem_of_nil in Hb.
  - apply elem_of_cons in Hb as [Heq|Hb]; [|by apply IH].
    injection Heq as <-. simpl. apply walkAllOf_props_dom. simpl.
    rewrite assignAll_lookup. destruct Hk as [v ->]. by exists v.
  - apply elem_of_cons in Hb as [Heq|Hb]; [done|]. simpl. by apply IH.
Qed.

(** X1.  The property names that the resolver returns for a schema are
    exactly the names the schema declares itself with a schema that is
    not nil, together with the names resolved by its all-of, one-of and
    any-of branches: no name is invented and none is dropped. *)
Theorem resolved_property_names (s : Schema) (k : string) :
  is_Some ((collectSchemaConstraints (Some s)).2 !! k)
  <-> (exists p, Properties s !! k = Some (Some p))
      \/ exists b, (Some b ∈ AllOf s \/ Some b ∈ OneOf s \/ Some b ∈ AnyOf s)
                   /\ is_Some ((collectSchemaConstraints (Some b)).2 !! k).
Proof.
  unfold collectSchemaConstraints. rewrite collectFrom_unfold. simpl. split.
  - intros [v Hk].
    apply walkAlt_origin in Hk as [Hk|[_ (b & Hb & Hv)]];
      [|right; exists b; split; [auto|by exists v]].
    apply walkAlt_origin in Hk as [Hk|[_ (b & Hb & Hv)]];
      [|right; exists b; split; [auto|by exists v]].
    apply walkAllOf_origin in Hk as [Hk|(b & Hb & Hv)];
      [|right; exists b; split; [auto|by exists v]].
    simpl in Hk. rewrite ownProps_lookup in Hk. left.
    destruct (Properties s !! k) as [[p|]|]; simpl in Hk; try done.
    by exists p.
  - intros [[p Hp]|(b & [Hb|[Hb|Hb]] & Hk)].
    + assert (Hown : is_Some
                ((walkAllOf (AllOf s) (Required s, ownProps (Properties s))).2 !! k)).
      { apply walkAllOf_props_dom. simpl. rewrite ownProps_lookup, Hp.
        by exists p. }
      destruct Hown as [v Hv]. exists v. by do 2 apply walkAlt_keeps.
    + destruct (walkAllOf_branch_dom (AllOf s)
                  (Required s, ownProps (Properties s)) b k Hb Hk) as [v Hv].
      exists v. by do 2 apply walkAlt_keeps.
    + destruct (walkAlt_dom (OneOf s)
                  (walkAllOf (AllOf s) (Required s, ownProps (Properties s))).2
                  b k Hb Hk) as [v Hv].
      exists v. by apply walkAlt_keeps.
    + by apply walkAlt_dom with b.
Qed.

(** X2.  A property that the schema declares itself, and that none of its
    all-of branches resolves, keeps the schema's own declaration whatever
    its one-of and any-of branches declare under the same name. *)
Theorem own_property_beats_alternatives (s p : Schema) (k : string) :
  Properties s !! k = Some (Some p) ->
  (forall b, Some b ∈ AllOf s -> (collectSchemaConstraints (Some b)).2 !! k = None) ->
  (collectSchemaConstraints (Some s)).2 !! k = Some p.
Proof.
  intros Hown Hall. unfold collectSchemaConstraints in *.
  rewrite collectFrom_unfold. simpl. do 2 apply walkAlt_keeps.
  apply walkAllOf_props_keep; [|done].
  simpl. by rewrite ownProps_lookup, Hown.
Qed.

Lemma own_property_beats_alternatives_witness :
  (collectSchemaConstraints
     (Some (objectSchema [] {[ "x" := Some (typedSchema "string" 2) ]} []
              [Some branchInteger] [Some branchString]))).2 !! "x"
  = Some (typedSchema "string" 2).
Proof.
  apply (own_property_beats_alternatives
           (objectSchema [] {[ "x" := Some (typedSchema "string" 2) ]} []
              [Some branchInteger] [Some branchString])
           (typedSchema "string" 2) "x").
  - reflexivity.
  - intros b Hb. by apply elem_of_nil in Hb.
Defined.

(** ** The property validator *)

(** X3.  A null value passes exactly when the property is nullable,
    whatever type the property declares; and under a declared type other
    than string, integer, number, boolean and array every value that is
    not null passes. *)
Theorem checkType_null_and_untyped (fmt_v : value -> string) (name : string)
    (val : value) (prop : Schema) :
  (checkType fmt_v name VNil prop = None <-> Nullable prop = true)
  /\ (Type_ prop ∉ ["string"; "integer"; "number"; "boolean"; "array"] ->
      val <> VNil -> checkType fmt_v name val prop = None).
Proof.
  split.
  - simpl. destruct (Nullable prop); simpl; split; congruence.
  - intros Hty Hval.
    assert (Hne : forall t, t ∈ ["string"; "integer"; "number"; "boolean"; "array"] ->
                            String.eqb (Type_ prop) t = false).
    { intros t Ht. apply String.eqb_neq. intros Heq. apply Hty. by rewrite Heq. }
    unfold checkType.
    rewrite (Hne "string"), (Hne "integer"), (Hne "number"), (Hne "boolean"),
      (Hne "array") by (repeat first [left|right]).
    by destruct val.
Qed.

(** X4.  Under the declared type string, a string value passes exactly
    when its byte length is at least the minimum length, at most the
    maximum length when one is set, and, when an enum is declared, equal
    to the text of one of its values. *)
Theorem checkType_string (fmt_v : value -> string) (name s : string)
    (prop : Schema) :
  Type_ prop = "string" ->
  checkType fmt_v name (VString s) prop = None
  <-> (MinLength prop <= N.of_nat (String.length s))%N
      /\ (forall mx, MaxLength prop = Some mx ->
                     (N.of_nat (String.length s) <= mx)%N)
      /\ (Enum prop = [] \/ exists e, e ∈ Enum prop /\ fmt_v e = s).
Proof.
  intros Hty. unfold checkType. rewrite Hty.
  change (String.eqb "string" "string") with true. cbv iota.
  set (len := N.of_nat (String.length s)).
  assert (Henum :
    (if (0 <? length (Enum prop))%nat
        && negb (existsb (fun e => String.eqb (fmt_v e) s) (Enum prop))
     then Some (propertyMsg name (" must be one of: " +:+ fmt_v (VArr (Enum prop))))
     else None) = None
    <-> (Enum prop = [] \/ exists e, e ∈ Enum prop /\ fmt_v e = s)).
  { destruct (Enum prop) as [|e0 es] eqn:He; [simpl; split; auto|].
    change (0 <? length (e0 :: es))%nat with true. rewrite andb_true_l.
    destruct (existsb _ (e0 :: es)) eqn:Hex; simpl.
    - split; [|done]. intros _. right.
      apply existsb_exists in Hex as (e & Hin & Heq).
      exists e. split; [by apply list_elem_of_In|by apply String.eqb_eq].
    - split; [done|]. intros [Hnil|(e & Hin & Heq)]; [done|].
      assert (Hex' : existsb (fun e => String.eqb (fmt_v e) s) (e0 :: es) = true).
      { apply existsb_exists. exists e. split; [by apply list_elem_of_In|].
        by apply String.eqb_eq. }
      congruence. }
  destruct ((0 <? MinLength prop)%N && (len <? MinLength prop)%N) eqn:Hmin.
  { split; [done|]. intros (Hge & _).
    apply andb_true_iff in Hmin as [_ Hlt]. apply N.ltb_lt in Hlt. lia. }
  assert (Hge : (MinLength prop <= len)%N).
  { apply andb_false_iff in Hmin as [H0|Hlt].
    - apply N.ltb_ge in H0. lia.
    - by apply N.ltb_ge in Hlt. }
  destruct (MaxLength prop) as [mx|] eqn:Hmax.
  - destruct (mx <? len)%N eqn:Hlt.
    + split; [done|]. intros (_ & Hle & _).
      specialize (Hle mx eq_refl). apply N.ltb_lt in Hlt. lia.
    + rewrite Henum. apply N.ltb_ge in Hlt. split.
      * intros He. split; [done|]. split; [|done]. by intros ? [= <-].
      * by intros (_ & _ & He).
  - rewrite Henum. split.
    + intros He. split; [done|]. split; [|done]. by intros ? [=].
    + by intros (_ & _ & He).
Qed.

Lemma checkType_string_witness :
  checkType noFmt "name" (VString "abc") (typedSchema "string" 3) = None
  <-> (MinLength (typedSchema "string" 3) <= N.of_nat (String.length "abc"))%N
      /\ (forall mx, MaxLength (typedSchema "string" 3) = Some mx ->
                     (N.of_nat (String.length "abc") <= mx)%N)
      /\ (Enum (typedSchema "string" 3) = []
          \/ exists e, e ∈ Enum (typedSchema "string" 3) /\ noFmt e = "abc").
Proof.
  apply (checkType_string noFmt "name" "abc" (typedSchema "string" 3)).
  reflexivity.
Defined.

(** X5.  For a value that is not null: under the declared types integer
    and number it passes exactly when it is a [float64] (a Go [int] is
    rejected); under boolean exactly when it is a [bool]; under string and
    under array a value of another dynamic type is rejected with the
    message of that type. *)
Theorem checkType_dynamic_type (fmt_v : value -> string) (name : string)
    (val : value) (prop : Schema) :
  val <> VNil ->
  (Type_ prop = "integer" \/ Type_ prop = "number" ->
   (checkType fmt_v name val prop = None <-> exists f, val = VFloat f))
  /\ (Type_ prop = "boolean" ->
      (checkType fmt_v name val prop = None <-> exists b, val = VBool b))
  /\ (Type_ prop = "string" -> (forall s, val <> VString s) ->
      checkType fmt_v name val prop
      = Some (propertyMsg name " must be a string"))
  /\ (Type_ prop = "array" -> (forall l, val <> VArr l) ->
      checkType fmt_v name val prop
      = Some (propertyMsg name " must be an array")).
Proof.
  intros Hval. split; [|split; [|split]].
  - intros Hty. split.
    + intros Hc. unfold checkType in Hc.
      destruct Hty as [Hty|Hty]; rewrite Hty in Hc;
        destruct val; try done; by eexists.
    + intros [f ->]. unfold checkType.
      destruct Hty as [Hty|Hty]; by rewrite Hty.
  - intros Hty. split.
    + intros Hc. unfold checkType in Hc. rewrite Hty in Hc.
      destruct val; try done. by eexists.
    + intros [b ->]. unfold checkType. by rewrite Hty.
  - intros Hty Hns. unfold checkType. rewrite Hty.
    destruct val; try done. by destruct (Hns s).
  - intros Hty Hna. unfold checkType. rewrite Hty.
    destruct val; try done. by destruct (Hna l).
Qed.

Lemma checkType_dynamic_type_witness :
  (Type_ (typedSchema "number" 0) = "integer"
   \/ Type_ (typedSchema "number" 0) = "number" ->
   (checkType noFmt "n" (VInt 3) (typedSchema "number" 0) = None
    <-> exists f, VInt 3 = VFloat f))
  /\ (Type_ (typedSchema "number" 0) = "boolean" ->
      (checkType noFmt "n" (VInt 3) (typedSchema "number" 0) = None
       <-> exists b, VInt 3 = VBool b))
  /\ (Type_ (typedSchema "number" 0) = "string" ->
      (forall s, VInt 3 <> VString s) ->
      checkType noFmt "n" (VInt 3) (typedSchema "number" 0)
      = Some (propertyMsg "n" " must be a string"))
  /\ (Type_ (typedSchema "number" 0) = "array" ->
      (forall l, VInt 3 <> VArr l) ->
      checkType noFmt "n" (VInt 3) (typedSchema "number" 0)
      = Some (propertyMsg "n" " must be an array")).
Proof.
  apply (checkType_dynamic_type noFmt "n" (VInt 3) (typedSchema "number" 0)).
  discriminate.
Defined.

(** X6.  Under the declared type array, an array value passes exactly
    when it has at least the declared minimum number of items. *)
Theorem checkType_array (fmt_v : value -> string) (name : string)
    (arr : list value) (prop : Schema) :
  Type_ prop = "array" ->
  checkType fmt_v name (VArr arr) prop = None
  <-> (MinItems prop <= N.of_nat (length arr))%N.
Proof.
  intros Hty. unfold checkType. rewrite Hty.
  change (String.eqb "array" "string") with false.
  change (String.eqb "array" "integer" || String.eqb "array" "number") with false.
  change (String.eqb "array" "boolean") with false.
  change (String.eqb "array" "array") with true. cbv iota.
  destruct ((0 <? MinItems prop)%N && (N.of_nat (length arr) <? MinItems prop)%N)
    eqn:Hmin.
  - split; [done|]. apply andb_true_iff in Hmin as [_ Hlt].
    apply N.ltb_lt in Hlt. lia.
  - split; [|done]. intros _.
    apply andb_false_iff in Hmin as [H0|Hlt].
    + apply N.ltb_ge in H0. lia.
    + by apply N.ltb_ge in Hlt.
Qed.

Lemma checkType_array_witness :
  checkType noFmt "tags" (VArr [VString "a"])
            (mkSchema "array" false 0 None [] 1 [] ∅ [] [] []) = None
  <-> (MinItems (mkSchema "array" false 0 None [] 1 [] ∅ [] [] [])
       <= N.of_nat (length [VString "a"]))%N.
Proof.
  apply (checkType_array noFmt "tags" [VString "a"]
           (mkSchema "array" false 0 None [] 1 [] ∅ [] [] [])).
  reflexivity.
Defined.

(** ** Body validation *)

Lemma missingRequired_eq (body : record) (required violations : list string) :
  missingRequired body required violations
  = violations ++ (missingProperty <$> List.filter (isMissing body) required).
Proof.
  unfold missingRequired. revert violations.
  induction required as [|f rest IH]; intros vs; simpl.
  - by rewrite app_nil_r.
  - rewrite IH. unfold isMissing at 2.
    destruct (body !! f); [done|]. simpl. by rewrite <- app_assoc.
Qed.

Lemma propertyViolations_eq (fmt_v : value -> string) (body : record)
    (props : gmap string Schema) (violations : list string) :
  propertyViolations fmt_v body props violations
  = violations ++ omap (violationOf fmt_v body) (map_to_list props).
Proof.
  unfold propertyViolations. generalize (map_to_list props). intros l.
  revert violations. induction l as [|np rest IH]; intros vs; simpl.
  - by rewrite app_nil_r.
  - rewrite IH. unfold violationOf at 2.
    destruct (body !! np.1) as [val|]; [|done].
    destruct (checkType fmt_v np.1 val np.2); [|done].
    simpl. by rewrite <- app_assoc.
Qed.

Lemma validateBody_decoded (json_Unmarshal : string -> string + record)
    (fmt_v : value -> string) (raw : string) (schema : option Schema)
    (body : record) :
  json_Unmarshal raw = inr body ->
  validateBody json_Unmarshal fmt_v raw schema
  = (missingProperty <$> List.filter (isMissing body)
                           (collectSchemaConstraints schema).1)
    ++ omap (violationOf fmt_v body)
            (map_to_list (collectSchemaConstraints schema).2).
Proof.
  intros Hdec. unfold validateBody. rewrite Hdec.
  destruct (collectSchemaConstraints schema) as [required props]. simpl.
  by rewrite propertyViolations_eq, missingRequired_eq.
Qed.

Lemma length_omap_le {A B} (f : A -> option B) (l : list A) :
  (length (omap f l) <= length l)%nat.
Proof.
  induction l as [|x l IH]; csimpl; [lia|].
  destruct (f x); simpl; lia.
Qed.

(** X7.  A body that does not decode yields the single violation that
    carries the decoder's error, whatever the schema.  A body that
    decodes yields first one violation for each occurrence in the
    resolved required list of a field the body lacks, in the order of
    that list, then the violations of the resolved properties that the
    body supplies, at most one for each property. *)
Theorem validateBody_violations (json_Unmarshal : string -> string + record)
    (fmt_v : value -> string) (raw : string) (schema : option Schema) :
  match json_Unmarshal raw with
  | inl err =>
      validateBody json_Unmarshal fmt_v raw schema
      = ["Invalid JSON body: " +:+ err]
  | inr body =>
      validateBody json_Unmarshal fmt_v raw schema
      = (missingProperty <$> List.filter (isMissing body)
                               (collectSchemaConstraints schema).1)
        ++ omap (violationOf fmt_v body)
                (map_to_list (collectSchemaConstraints schema).2)
      /\ (length (omap (violationOf fmt_v body)
                       (map_to_list (collectSchemaConstraints schema).2))
          <= size (collectSchemaConstraints schema).2)%nat
  end.
Proof.
  destruct (json_Unmarshal raw) as [err|body] eqn:Hdec.
  - unfold validateBody. by rewrite Hdec.
  - split; [by apply validateBody_decoded|].
    rewrite <- length_map_to_list. apply length_omap_le.
Qed.

(** X8.  The body passes validation (no violation) exactly when it
    decodes, holds every field of the resolved required list, and each
    resolved property that it supplies passes the property validator;
    fields that the schema does not declare are never looked at. *)
Theorem validateBody_passes_iff (json_Unmarshal : string -> string + record)
    (fmt_v : value -> string) (raw : string) (schema : option Schema) :
  validateBody json_Unmarshal fmt_v raw schema = []
  <-> exists body,
        json_Unmarshal raw = inr body
        /\ (forall field, field ∈ (collectSchemaConstraints schema).1 ->
                          is_Some (body !! field))
        /\ (forall name prop val,
              (collectSchemaConstraints schema).2 !! name = Some prop ->
              body !! name = Some val ->
              checkType fmt_v name val prop = None).
Proof.
  split.
  - intros Hv. destruct (json_Unmarshal raw) as [err|body] eqn:Hdec.
    { unfold validateBody in Hv. by rewrite Hdec in Hv. }
    exists body. split; [done|].
    rewrite (validateBody_decoded _ _ _ _ _ Hdec) in Hv.
    apply app_eq_nil in Hv as [Hreq Hprops]. split.
    + intros field Hin.
      destruct (body !! field) as [v|] eqn:Hf; [by exists v|].
      assert (Hm : missingProperty field
                   ∈ missingProperty <$> List.filter (isMissing body)
                                           (collectSchemaConstraints schema).1).
      { apply list_elem_of_fmap_2, list_elem_of_In, filter_In.
        split; [by apply list_elem_of_In|]. unfold isMissing. by rewrite Hf. }
      rewrite Hreq in Hm. by apply elem_of_nil in Hm.
    + intros name prop val Hp Hb.
      destruct (checkType fmt_v name val prop) as [err|] eqn:Hc; [|done].
      assert (Hm : ("request.body " +:+ err)
                   ∈ omap (violationOf fmt_v body)
                          (map_to_list (collectSchemaConstraints schema).2)).
      { apply list_elem_of_omap. exists (name, prop).
        split; [by apply elem_of_map_to_list|].
        unfold violationOf. simpl. by rewrite Hb, Hc. }
      rewrite Hprops in Hm. by apply elem_of_nil in Hm.
  - intros (body & Hdec & Hreq & Hprops).
    rewrite (validateBody_decoded _ _ _ _ _ Hdec).
    assert (Hnone : List.filter (isMissing body)
                      (collectSchemaConstraints schema).1 = []).
    { destruct (List.filter _ _) as [|f fs] eqn:Hf; [done|].
      assert (Hin : List.In f (List.filter (isMissing body)
                                 (collectSchemaConstraints schema).1))
        by (rewrite Hf; left; done).
      apply filter_In in Hin as [Hin Hmiss].
      apply list_elem_of_In, Hreq in Hin as [v Hv].
      unfold isMissing in Hmiss. by rewrite Hv in Hmiss. }
    rewrite Hnone. simpl.
    destruct (omap _ _) as [|m ms] eqn:Ho; [done|].
    assert (Hin : m ∈ omap (violationOf fmt_v body)
                    (map_to_list (collectSchemaConstraints schema).2))
      by (rewrite Ho; left).
    apply list_elem_of_omap in Hin as ([name prop] & Hin & Hviol).
    apply elem_of_map_to_list in Hin.
    unfold violationOf in Hviol. simpl in Hviol.
    destruct (body !! name) as [val|] eqn:Hb; [|done].
    by rewrite (Hprops name prop val Hin Hb) in Hviol.
Qed.

(** ** Content negotiation *)

Lemma length_zero_empty (s : string) :
  Nat.eqb (String.length s) 0 = true <-> s = EmptyString.
Proof. destruct s; simpl; split; congruence. Qed.

Lemma length_pos_nonempty (s : string) :
  (0 <? String.length s)%nat = true <-> s <> EmptyString.
Proof.
  destruct s; simpl; split; try congruence; try done.
Qed.

(** X9.  The content step lets a request through exactly in these cases:
    there is no operation, the method carries no body, the operation
    declares no request body, the body is empty and not required, the
    body is not empty and no media types are declared, or the body is not
    empty, the Content-Type header is set, its part before the first
    semicolon, trimmed, is a declared media type, and that media type
    has no schema or the body validates against it. *)
Theorem contentStep_passes_iff (json_Unmarshal : string -> string + record)
    (fmt_v : value -> string) (operation : option Operation)
    (method : string) (c : Ctx) :
  contentStep json_Unmarshal fmt_v operation method c = None
  <-> operation = None
      \/ needsRequestBody method = false
      \/ exists op,
           operation = Some op
           /\ (opRequestBody op = None
               \/ exists rb,
                    opRequestBody op = Some rb
                    /\ ((Body c = EmptyString /\ rbRequired rb = false)
                        \/ (Body c <> EmptyString
                            /\ (rbContent rb = None
                                \/ exists content mt,
                                     rbContent rb = Some content
                                     /\ Get c "Content-Type" <> EmptyString
                                     /\ content !! TrimSpace (beforeSemicolon
                                                      (Get c "Content-Type"))
                                        = Some mt
                                     /\ (mtSchema mt = None
                                         \/ exists schema,
                                              mtSchema mt = Some schema
                                              /\ validateBody json_Unmarshal
                                                   fmt_v (Body c) (Some schema)
                                                 = []))))).
Proof.
  unfold contentStep.
  destruct operation as [op|]; [|split; auto].
  destruct (needsRequestBody method); [|split; auto].
  destruct (opRequestBody op) as [rb|] eqn:Hrb;
    [|split; [intros _; right; right; exists op; auto|done]].
  destruct (Nat.eqb (String.length (Body c)) 0) eqn:Hlen.
  - apply length_zero_empty in Hlen.
    assert (Hpos : (0 <? String.length (Body c))%nat = false)
      by (rewrite Hlen; done).
    destruct (rbRequired rb) eqn:Hreq; simpl.
    + split; [done|].
      intros [?|[?|(op' & [= <-] & [Hn|(rb' & Hrb' & Hcase)])]]; try done;
        [congruence|].
      rewrite Hrb in Hrb'. injection Hrb' as <-.
      destruct Hcase as [[_ Hf]|[Hne _]]; congruence.
    + split.
      * intros _. right. right. exists op. split; [done|]. right.
        exists rb. split; [done|]. by left.
      * intros _. destruct (rbContent rb); [by rewrite Hpos|done].
  - assert (Hne : Body c <> EmptyString).
    { intros Heq. apply length_zero_empty in Heq. congruence. }
    assert (Hpos : (0 <? String.length (Body c))%nat = true)
      by (by apply length_pos_nonempty).
    rewrite andb_false_r.
    destruct (rbContent rb) as [content|] eqn:Hct.
    2:{ split; [|done]. intros _. right. right. exists op. split; [done|].
        right. exists rb. split; [done|]. right. split; [done|]. by left. }
    rewrite Hpos.
    destruct (String.eqb (Get c "Content-Type") "") eqn:Hh.
    { apply String.eqb_eq in Hh. split; [done|].
      intros [?|[?|(op' & [= <-] & [Hn|(rb' & Hrb' & Hcase)])]]; try done;
        [congruence|].
      rewrite Hrb in Hrb'. injection Hrb' as <-.
      destruct Hcase as [[He _]|[_ [Hn|(content' & mt & _ & Hset & _)]]];
        congruence. }
    apply String.eqb_neq in Hh.
    destruct (content !! TrimSpace (beforeSemicolon (Get c "Content-Type")))
      as [mt|] eqn:Hmt.
    2:{ split; [done|].
        intros [?|[?|(op' & [= <-] & [Hn|(rb' & Hrb' & Hcase)])]]; try done;
          [congruence|].
        rewrite Hrb in Hrb'. injection Hrb' as <-.
        destruct Hcase as [[He _]|[_ [Hn|(content' & mt & Hc' & _ & Hl & _)]]];
          congruence. }
    destruct (mtSchema mt) as [schema|] eqn:Hs.
    2:{ split; [|done]. intros _. right. right. exists op. split; [done|].
        right. exists rb. split; [done|]. right. split; [done|]. right.
        exists content, mt. auto. }
    destruct (validateBody json_Unmarshal fmt_v (Body c) (Some schema))
      as [|v vs] eqn:Hv; simpl.
    + split; [|done]. intros _. right. right. exists op. split; [done|].
      right. exists rb. split; [done|]. right. split; [done|]. right.
      exists content, mt. repeat (split; [done|]). right. by exists schema.
    + split; [done|].
      intros [?|[?|(op' & [= <-] & [Hn|(rb' & Hrb' & Hcase)])]]; try done;
        [congruence|].
      rewrite Hrb in Hrb'. injection Hrb' as <-.
      destruct Hcase as [[He _]|[_ [Hn|(content' & mt' & Hc' & _ & Hl & Hsch)]]];
        [congruence|congruence|].
      rewrite Hct in Hc'. injection Hc' as <-.
      rewrite Hmt in Hl. injection Hl as <-.
      destruct Hsch as [Hn|(schema' & Hs' & Hv')]; [congruence|].
      rewrite Hs in Hs'. injection Hs' as <-. congruence.
Qed.

(** X10.  For a method that carries a body and an operation that
    declares a request body: a required body that is empty is answered
    400 "Body parameter is required"; a body that is not empty, when
    media types are declared, is answered 415 if the Content-Type header
    is missing and 415 naming the base media type if that type is not
    declared (the body is not validated then), and 400 with all
    violations joined by "; " if the media type's schema yields
    violations. *)
Theorem contentStep_rejections (json_Unmarshal : string -> string + record)
    (fmt_v : value -> string) (op : Operation) (rb : RequestBody)
    (method : string) (c : Ctx) :
  needsRequestBody method = true ->
  opRequestBody op = Some rb ->
  (rbRequired rb = true -> Body c = EmptyString ->
   contentStep json_Unmarshal fmt_v (Some op) method c
   = Some (validationError 400 "Body parameter is required"))
  /\ (forall content,
        Body c <> EmptyString -> rbContent rb = Some content ->
        (Get c "Content-Type" = EmptyString ->
         contentStep json_Unmarshal fmt_v (Some op) method c
         = Some (validationError 415 "Content-Type header is required"))
        /\ (Get c "Content-Type" <> EmptyString ->
            content !! TrimSpace (beforeSemicolon (Get c "Content-Type")) = None ->
            contentStep json_Unmarshal fmt_v (Some op) method c
            = Some (validationError 415
                      ("Unsupported media type: "
                         +:+ TrimSpace (beforeSemicolon (Get c "Content-Type"))
                         +:+ ". Allowed: "
                         +:+ Join (map_to_list content).*1 ", ")))
        /\ (forall mt schema v vs,
              Get c "Content-Type" <> EmptyString ->
              content !! TrimSpace (beforeSemicolon (Get c "Content-Type"))
              = Some mt ->
              mtSchema mt = Some schema ->
              validateBody json_Unmarshal fmt_v (Body c) (Some schema) = v :: vs ->
              contentStep json_Unmarshal fmt_v (Some op) method c
              = Some (bodyValidationError 400 (v :: vs)))).
Proof.
  intros Hm Hrb. unfold contentStep. rewrite Hm, Hrb. split.
  - intros Hreq Hb. by rewrite Hreq, Hb.
  - intros content Hne Hct.
    assert (Hlen : Nat.eqb (String.length (Body c)) 0 = false).
    { destruct (Nat.eqb _ 0) eqn:Hl; [|done].
      by apply length_zero_empty in Hl. }
    assert (Hpos : (0 <? String.length (Body c))%nat = true)
      by (by apply length_pos_nonempty).
    rewrite Hlen, andb_false_r, Hct, Hpos.
    split; [|split].
    + intros Hh. by rewrite Hh.
    + intros Hh Hl. apply String.eqb_neq in Hh. by rewrite Hh, Hl.
    + intros mt schema v vs Hh Hl Hs Hv.
      apply String.eqb_neq in Hh. by rewrite Hh, Hl, Hs, Hv.
Qed.

Lemma contentStep_rejections_witness :
  (rbRequired jsonBody = true ->
   Body (withBody "text/plain; charset=utf-8" "{}") = EmptyString ->
   contentStep sampleUnmarshal noFmt (Some jsonOperation) MethodPost
               (withBody "text/plain; charset=utf-8" "{}")
   = Some (validationError 400 "Body parameter is required"))
  /\ (forall content,
        Body (withBody "text/plain; charset=utf-8" "{}") <> EmptyString ->
        rbContent jsonBody = Some content ->
        (Get (withBody "text/plain; charset=utf-8" "{}") "Content-Type"
         = EmptyString ->
         contentStep sampleUnmarshal noFmt (Some jsonOperation) MethodPost
                     (withBody "text/plain; charset=utf-8" "{}")
         = Some (validationError 415 "Content-Type header is required"))
        /\ (Get (withBody "text/plain; charset=utf-8" "{}") "Content-Type"
            <> EmptyString ->
            content !! TrimSpace (beforeSemicolon
                        (Get (withBody "text/plain; charset=utf-8" "{}")
                             "Content-Type")) = None ->
            contentStep sampleUnmarshal noFmt (Some jsonOperation) MethodPost
                        (withBody "text/plain; charset=utf-8" "{}")
            = Some (validationError 415
                      ("Unsupported media type: "
                         +:+ TrimSpace (beforeSemicolon
                               (Get (withBody "text/plain; charset=utf-8" "{}")
                                    "Content-Type"))
                         +:+ ". Allowed: "
                         +:+ Join (map_to_list content).*1 ", ")))
        /\ (forall mt schema v vs,
              Get (withBody "text/plain; charset=utf-8" "{}") "Content-Type"
              <> EmptyString ->
              content !! TrimSpace (beforeSemicolon
                          (Get (withBody "text/plain; charset=utf-8" "{}")
                               "Content-Type")) = Some mt ->
              mtSchema mt = Some schema ->
              validateBody sampleUnmarshal noFmt
                (Body (withBody "text/plain; charset=utf-8" "{}")) (Some schema)
              = v :: vs ->
              contentStep sampleUnmarshal noFmt (Some jsonOperation) MethodPost
                          (withBody "text/plain; charset=utf-8" "{}")
              = Some (bodyValidationError 400 (v :: vs)))).
Proof.
  apply (contentStep_rejections sampleUnmarshal noFmt jsonOperation jsonBody
           MethodPost (withBody "text/plain; charset=utf-8" "{}"));
    reflexivity.
Defined.

(** ** Required parameters *)

Lemma paramStep_cons (p : OpParameter) (rest : list (option OpParameter))
    (c : Ctx) :
  paramStep (Some p :: rest) c
  = if negb (paramRequired p) then paramStep rest c
    else if String.eqb (paramValue c p) "" then Some (missingParameter p)
         else paramStep rest c.
Proof. reflexivity. Qed.

(** X11.  The parameter step lets a request through exactly when every
    declared parameter that is marked required has a value that is not
    empty at its location; a required parameter whose location is none of
    query, path and header (a cookie parameter) therefore stops every
    request. *)
Theorem paramStep_passes_iff (params : list (option OpParameter)) (c : Ctx) :
  (paramStep params c = None
   <-> forall p, Some p ∈ params -> paramRequired p = true ->
                 paramValue c p <> EmptyString)
  /\ (forall p, Some p ∈ params -> paramRequired p = true ->
        paramIn p ∉ ["query"; "path"; "header"] ->
        paramStep params c <> None).
Proof.
  assert (Hiff : paramStep params c = None
                 <-> forall p, Some p ∈ params -> paramRequired p = true ->
                               paramValue c p <> EmptyString).
  { induction params as [|[p|] rest IH].
    - split; [|done]. intros _ p Hp. by apply elem_of_nil in Hp.
    - rewrite paramStep_cons.
      destruct (paramRequired p) eqn:Hreq; simpl.
      + destruct (String.eqb (paramValue c p) "") eqn:Hv.
        * apply String.eqb_eq in Hv. split; [done|].
          intros Hall. exfalso. apply (Hall p); [left|done|done].
        * apply String.eqb_neq in Hv. rewrite IH. split.
          -- intros Hall q Hq Hr.
             apply elem_of_cons in Hq as [[= ->]|Hq]; [done|by apply Hall].
          -- intros Hall q Hq. apply Hall. by right.
      + rewrite IH. split.
        * intros Hall q Hq Hr.
          apply elem_of_cons in Hq as [[= ->]|Hq]; [congruence|by apply Hall].
        * intros Hall q Hq. apply Hall. by right.
    - simpl. rewrite IH. split.
      + intros Hall q Hq. apply elem_of_cons in Hq as [?|Hq]; [done|].
        by apply Hall.
      + intros Hall q Hq. apply Hall. by right. }
  split; [exact Hiff|].
  intros p Hp Hreq Hin Hnone.
  apply (proj1 Hiff Hnone p Hp Hreq).
  assert (Hne : forall t, t ∈ ["query"; "path"; "header"] ->
                          String.eqb (paramIn p) t = false).
  { intros t Ht. apply String.eqb_neq. intros Heq. apply Hin. by rewrite Heq. }
  unfold paramValue.
  by rewrite (Hne "query"), (Hne "path"), (Hne "header")
    by (repeat first [left|right]).
Qed.

(** X12.  The parameter step stops at the first required parameter,
    in the order of the declaration, whose value is empty, and answers
    400 naming that parameter and its location; parameters declared after
    it are not examined. *)
Theorem paramStep_first_missing (pre post : list (option OpParameter))
    (p : OpParameter) (c : Ctx) :
  (forall q, Some q ∈ pre -> paramRequired q = true ->
             paramValue c q <> EmptyString) ->
  paramRequired p = true ->
  paramValue c p = EmptyString ->
  paramStep (pre ++ Some p :: post) c = Some (missingParameter p).
Proof.
  intros Hpre Hreq Hval.
  induction pre as [|[q|] rest IH]; simpl app.
  - rewrite paramStep_cons, Hreq, Hval. reflexivity.
  - rewrite paramStep_cons.
    destruct (paramRequired q) eqn:Hq; simpl.
    + assert (Hv : paramValue c q <> EmptyString)
        by (apply Hpre; [left|done]).
      apply String.eqb_neq in Hv. rewrite Hv.
      apply IH. intros q' Hq'. apply Hpre. by right.
    + apply IH. intros q' Hq'. apply Hpre. by right.
  - simpl. apply IH. intros q' Hq'. apply Hpre. by right.
Qed.

Lemma paramStep_first_missing_witness :
  paramStep ([None; Some (mkOpParameter "id" "path" true)]
               ++ Some sessionCookie :: [Some pageQuery]) (byId "7")
  = Some (missingParameter sessionCookie).
Proof.
  apply (paramStep_first_missing
           [None; Some (mkOpParameter "id" "path" true)] [Some pageQuery]
           sessionCookie (byId "7")).
  - intros q Hq _.
    apply elem_of_cons in Hq as [Hq|Hq]; [discriminate Hq|].
    apply list_elem_of_singleton in Hq. injection Hq as ->.
    vm_compute. discriminate.
  - reflexivity.
  - reflexivity.
Defined.

(** ** The security step and the evaluator *)

(** X13.  The security step stops a request exactly when at least one
    requirement is in force and the evaluator rejects the request, and it
    then answers 401 "Invalid security scheme used"; an operation that
    declares its own list replaces the document-wide list, so an
    operation with an empty list is open to every request, and so is an
    operation without a list under a document without one. *)
Theorem securityStep_outcomes (doc : option T) (operation : option Operation)
    (c : Ctx) :
  (securityStep doc operation c
   = if bool_decide (resolveSecurityRequirements doc operation = [])
     then None
     else if isAuthenticated doc c (resolveSecurityRequirements doc operation)
          then None
          else Some (validationError 401 "Invalid security scheme used"))
  /\ (forall op s, operation = Some op -> opSecurity op = Some s ->
                   resolveSecurityRequirements doc operation = s)
  /\ (forall op, operation = Some op -> opSecurity op = Some [] ->
                 securityStep doc operation c = None)
  /\ ((operation = None \/ exists op, operation = Some op /\ opSecurity op = None) ->
      (doc = None \/ exists d, doc = Some d /\ docSecurity d = []) ->
      securityStep doc operation c = None).
Proof.
  assert (Hstep : securityStep doc operation c
                  = if bool_decide (resolveSecurityRequirements doc operation = [])
                    then None
                    else if isAuthenticated doc c
                              (resolveSecurityRequirements doc operation)
                         then None
                         else Some (validationError 401
                                      "Invalid security scheme used")).
  { unfold securityStep.
    destruct (resolveSecurityRequirements doc operation) as [|r rs]; [done|].
    simpl. by destruct (isAuthenticated doc c (r :: rs)). }
  split; [exact Hstep|]. split; [|split].
  - intros op s -> Hs. simpl. by rewrite Hs.
  - intros op -> Hs. rewrite Hstep. simpl. by rewrite Hs.
  - intros Hop Hdoc. rewrite Hstep.
    assert (Hnil : resolveSecurityRequirements doc operation = []).
    { unfold resolveSecurityRequirements.
      destruct Hop as [->|(op & -> & ->)];
        destruct Hdoc as [->|(d & -> & ->)]; done. }
    by rewrite Hnil.
Qed.

Lemma requirementSatisfied_iff (schemes : gmap string (option SecurityScheme))
    (c : Ctx) (req : SecurityRequirement) :
  requirementSatisfied schemes c req = true
  <-> forall n scopes, req !! n = Some scopes ->
        exists scheme, schemes !! n = Some (Some scheme)
                       /\ schemeSatisfied c scheme = true.
Proof.
  unfold requirementSatisfied. rewrite forallb_forall. split.
  - intros Hall n scopes Hn.
    specialize (Hall (n, scopes)). simpl in Hall.
    destruct (schemes !! n) as [[scheme|]|] eqn:Hs;
      try (exfalso; apply diff_false_true, Hall, list_elem_of_In;
           by apply elem_of_map_to_list).
    exists scheme. split; [done|].
    apply Hall, list_elem_of_In. by apply elem_of_map_to_list.
  - intros Hall [n scopes] Hin. simpl.
    apply list_elem_of_In, elem_of_map_to_list in Hin.
    destruct (Hall n scopes Hin) as (scheme & -> & Hsat). done.
Qed.

(** X14.  When the document has a table of security schemes, the
    evaluator returns satisfied exactly when some alternative of the list
    has every scheme it names declared in the table and satisfied by the
    request: any of the alternatives, all of its schemes.  A scheme name
    that the table does not declare makes its alternative fail. *)
Theorem isAuthenticated_any_of_all (d : T) (comps : Components)
    (schemes : gmap string (option SecurityScheme)) (c : Ctx)
    (reqs : list SecurityRequirement) :
  docComponents d = Some comps ->
  SecuritySchemes comps = Some schemes ->
  isAuthenticated (Some d) c reqs = true
  <-> exists req,
        req ∈ reqs
        /\ forall n scopes, req !! n = Some scopes ->
             exists scheme, schemes !! n = Some (Some scheme)
                            /\ schemeSatisfied c scheme = true.
Proof.
  intros Hc Hs. rewrite (isAuthenticated_table d comps schemes c reqs Hc Hs).
  rewrite existsb_exists. split.
  - intros (req & Hin & Hsat). exists req.
    split; [by apply list_elem_of_In|].
    apply orb_true_iff in Hsat as [Hempty|Hsat].
    + apply Nat.eqb_eq, map_size_empty_iff in Hempty. subst req.
      intros n scopes Hn. by rewrite lookup_empty in Hn.
    + by apply requirementSatisfied_iff.
  - intros (req & Hin & Hall). exists req.
    split; [by apply list_elem_of_In|].
    apply orb_true_iff. right. by apply requirementSatisfied_iff.
Qed.

Lemma isAuthenticated_any_of_all_witness :
  isAuthenticated (Some docApiKey) (withHeader "X-Key" "secret")
                  [{[ "other" := [] ]}; {[ "key" := [] ]}] = true
  <-> exists req,
        req ∈ [({[ "other" := [] ]} : SecurityRequirement); {[ "key" := [] ]}]
        /\ forall n scopes, req !! n = Some scopes ->
             exists scheme,
               ({[ "key" := Some apiKeyHeader ]}
                : gmap string (option SecurityScheme)) !! n = Some (Some scheme)
               /\ schemeSatisfied (withHeader "X-Key" "secret") scheme = true.
Proof.
  apply (isAuthenticated_any_of_all docApiKey
           (mkComponents (Some {[ "key" := Some apiKeyHeader ]}))
           {[ "key" := Some apiKeyHeader ]} (withHeader "X-Key" "secret")
           [{[ "other" := [] ]}; {[ "key" := [] ]}]);
    reflexivity.
Defined.

(** X15.  An apiKey scheme is satisfied exactly when the field it names
    is present (not empty) where the scheme locates it: among the headers,
    the query parameters or the cookies; with any other location it is
    never satisfied.  The value of the key is not examined. *)
Theorem apiKey_scheme_satisfied (c : Ctx) (scheme : SecurityScheme) :
  schemeType scheme = "apiKey" ->
  schemeSatisfied c scheme = true
  <-> (schemeIn scheme = "header" /\ Get c (schemeName scheme) <> EmptyString)
      \/ (schemeIn scheme = "query" /\ Query c (schemeName scheme) <> EmptyString)
      \/ (schemeIn scheme = "cookie"
          /\ Cookies c (schemeName scheme) <> EmptyString).
Proof.
  intros Hty. unfold schemeSatisfied. rewrite Hty.
  change (String.eqb "apiKey" "http") with false.
  change (String.eqb "apiKey" "apiKey") with true. cbv iota.
  destruct (String.eqb (schemeIn scheme) "header") eqn:Hh.
  { apply String.eqb_eq in Hh. rewrite Hh, negb_true_iff, String.eqb_neq.
    split; [by left|]. intros [[_ ?]|[[? _]|[? _]]]; done. }
  destruct (String.eqb (schemeIn scheme) "query") eqn:Hq.
  { apply String.eqb_eq in Hq. rewrite Hq, negb_true_iff, String.eqb_neq.
    split; [by right; left|]. intros [[? _]|[[_ ?]|[? _]]]; done. }
  destruct (String.eqb (schemeIn scheme) "cookie") eqn:Hk.
  { apply String.eqb_eq in Hk. rewrite Hk, negb_true_iff, String.eqb_neq.
    split; [by right; right|]. intros [[? _]|[[? _]|[_ ?]]]; done. }
  apply String.eqb_neq in Hh, Hq, Hk.
  split; [done|]. intros [[? _]|[[? _]|[? _]]]; done.
Qed.

Lemma apiKey_scheme_satisfied_witness :
  schemeSatisfied (withHeader "X-Key" "secret") apiKeyHeader = true
  <-> (schemeIn apiKeyHeader = "header"
       /\ Get (withHeader "X-Key" "secret") (schemeName apiKeyHeader)
          <> EmptyString)
      \/ (schemeIn apiKeyHeader = "query"
          /\ Query (withHeader "X-Key" "secret") (schemeName apiKeyHeader)
             <> EmptyString)
      \/ (schemeIn apiKeyHeader = "cookie"
          /\ Cookies (withHeader "X-Key" "secret") (schemeName apiKeyHeader)
             <> EmptyString).
Proof.
  apply (apiKey_scheme_satisfied (withHeader "X-Key" "secret") apiKeyHeader).
  reflexivity.
Defined.

(** X16.  A scheme whose type is neither http nor apiKey (oauth2,
    openIdConnect, anything else), and an http scheme whose sub-kind is
    not bearer, is satisfied exactly when the Authorization header is
    present (not empty); its value is not examined. *)
Theorem authorization_presence_suffices (c : Ctx) (scheme : SecurityScheme) :
  (schemeType scheme = "http" /\ EqualFold (schemeScheme scheme) "bearer" = false)
  \/ (schemeType scheme <> "http" /\ schemeType scheme <> "apiKey") ->
  schemeSatisfied c scheme = true <-> Get c "Authorization" <> EmptyString.
Proof.
  intros [[Hty Hsub]|[Hh Ha]]; unfold schemeSatisfied.
  - rewrite Hty, Hsub. simpl.
    destruct (String.eqb (Get c "Authorization") "") eqn:He.
    + apply String.eqb_eq in He. by rewrite He.
    + apply String.eqb_neq in He. done.
  - apply String.eqb_neq in Hh, Ha. rewrite Hh, Ha.
    by rewrite negb_true_iff, String.eqb_neq.
Qed.

Lemma authorization_presence_suffices_witness :
  schemeSatisfied (withAuthorization "anything")
                  (mkSecurityScheme "oauth2" EmptyString EmptyString EmptyString)
  = true
  <-> Get (withAuthorization "anything") "Authorization" <> EmptyString.
Proof.
  apply (authorization_presence_suffices (withAuthorization "anything")
           (mkSecurityScheme "oauth2" EmptyString EmptyString EmptyString)).
  right. split; discriminate.
Defined.

(** ** The handler *)

Lemma handle_validated (json_Unmarshal : string -> string + record)
    (fmt_v : value -> string)
    (json_MarshalIndent : gmap string (list record) -> string)
    (doc : option T) (c : Ctx) (method resource dataFile : string)
    (w : World) :
  passesValidation json_Unmarshal fmt_v doc c method ->
  handle json_Unmarshal fmt_v json_MarshalIndent doc c method resource
         dataFile w
  = (_ <- Lock ;;
     defer Unlock (mockResponse json_MarshalIndent c method resource dataFile)) w.
Proof.
  intros (Hsec & Hcontent & Hparam). unfold handle.
  by rewrite Hsec, Hcontent, Hparam.
Qed.

Lemma handle_validated_free (json_Unmarshal : string -> string + record)
    (fmt_v : value -> string)
    (json_MarshalIndent : gmap string (list record) -> string)
    (doc : option T) (c : Ctx) (method resource dataFile : string)
    (w : World) :
  passesValidation json_Unmarshal fmt_v doc c method ->
  mu (store w) = false ->
  handle json_Unmarshal fmt_v json_MarshalIndent doc c method resource
         dataFile w
  = match mockResponse json_MarshalIndent c method resource dataFile
            (setMu true w) with
    | Returns r w' => Returns r (setMu false w')
    | Panics w' => Panics (setMu false w')
    | Blocks w' => Blocks w'
    end.
Proof.
  intros Hval Hmu. rewrite handle_validated by done.
  unfold bind, Lock. rewrite Hmu. unfold defer.
  pose proof (mockResponse_locked json_MarshalIndent c method resource
                dataFile (setMu true w) eq_refl) as Hm.
  pose proof (mu_ensureList resource (setMu true w)) as Hmu1. simpl in Hmu1.
  destruct (mockResponse json_MarshalIndent c method resource dataFile
              (setMu true w)) as [r w'|w'|w']; [| |done];
    subst w'; unfold Unlock; by rewrite Hmu1.
Qed.

Lemma mockResponse_reads (resource : string) (w : World) :
  default [] (Data (store (ensureList resource (setMu true w))) !! resource)
  = recordsOf w resource.
Proof.
  pose proof (recordsOf_ensureList resource (setMu true w) resource) as Hl.
  by rewrite recordsOf_setMu in Hl.
Qed.

Lemma eqb_false_of_not_in (x : string) (l : list string) (t : string) :
  x ∉ l -> t ∈ l -> String.eqb x t = false.
Proof.
  intros Hx Ht. apply String.eqb_neq. intros Heq. apply Hx. by rewrite Heq.
Qed.

(** The three validation steps run in the order security, content,
    parameters, and the first one that objects decides the answer: the
    handler returns that step's response without taking the mutex and
    without touching the store, even while the mutex is held. *)
Lemma handle_validation_rejects
    (json_Unmarshal : string -> string + record) (fmt_v : value -> string)
    (json_MarshalIndent : gmap string (list record) -> string)
    (doc : option T) (c : Ctx) (method resource dataFile : string)
    (w : World) (r : response) :
  let operation := operationForPathMethod doc (RoutePath c) method in
  (securityStep doc operation c = Some r ->
   handle json_Unmarshal fmt_v json_MarshalIndent doc c method resource
          dataFile w = Returns r w)
  /\ (securityStep doc operation c = None ->
      contentStep json_Unmarshal fmt_v operation method c = Some r ->
      handle json_Unmarshal fmt_v json_MarshalIndent doc c method resource
             dataFile w = Returns r w)
  /\ (securityStep doc operation c = None ->
      contentStep json_Unmarshal fmt_v operation method c = None ->
      paramStep (from_option opParameters [] operation) c = Some r ->
      handle json_Unmarshal fmt_v json_MarshalIndent doc c method resource
             dataFile w = Returns r w).
Proof.
  intros operation. unfold handle. fold operation. repeat split.
  - by intros ->.
  - by intros -> ->.
  - by intros -> -> ->.
Qed.

(** X17.  A call of the handler that returns or panics leaves the mutex
    as it found it (the deferred unlock has run); a call that never
    returns leaves it held. *)
Theorem handle_mutex_discipline
    (json_Unmarshal : string -> string + record) (fmt_v : value -> string)
    (json_MarshalIndent : gmap string (list record) -> string)
    (doc : option T) (c : Ctx) (method resource dataFile : string)
    (w : World) :
  match handle json_Unmarshal fmt_v json_MarshalIndent doc c method resource
               dataFile w with
  | Returns _ w' | Panics w' => mu (store w') = mu (store w)
  | Blocks w' => mu (store w') = true
  end.
Proof.
  destruct (mu (store w)) eqn:Hm.
  - destruct (handle_cases json_Unmarshal fmt_v json_MarshalIndent doc c
                method resource dataFile w) as [[r Ho]|[[_ Ho]|[Hf _]]];
      [| |congruence]; simpl in Ho; by rewrite Ho.
  - destruct (handle_free json_Unmarshal fmt_v json_MarshalIndent doc c
                method resource dataFile w Hm)
      as [[r Ho]|[[r Ho]|[Ho|(w' & Ho & Hm' & _)]]];
      simpl in Ho; rewrite Ho; done.
Qed.

(** X18.  While the mutex is held, a request that passes validation
    waits for ever, and no request changes the store or the files:
    whatever sequence of requests the server handles, the world stays as
    it is. *)
Theorem held_mutex_freezes_store
    (json_Unmarshal : string -> string + record) (fmt_v : value -> string)
    (json_MarshalIndent : gmap string (list record) -> string)
    (doc : option T) (dataFile : string) (w : World) :
  mu (store w) = true ->
  (forall c method resource,
     passesValidation json_Unmarshal fmt_v doc c method ->
     handle json_Unmarshal fmt_v json_MarshalIndent doc c method resource
            dataFile w = Blocks w)
  /\ forall reqs,
       serve json_Unmarshal fmt_v json_MarshalIndent doc dataFile reqs w = w.
Proof.
  intros Hmu. split.
  - intros c method resource Hval. rewrite handle_validated by done.
    unfold bind, Lock. by rewrite Hmu.
  - induction reqs as [|r rest IH]; simpl; [done|].
    destruct (handle_cases json_Unmarshal fmt_v json_MarshalIndent doc
                (rqCtx r) (rqMethod r) (rqResource r) dataFile w)
      as [[a Ho]|[[_ Ho]|[Hf _]]]; [| |congruence];
      simpl in Ho; by rewrite Ho.
Qed.

Lemma held_mutex_freezes_store_witness :
  (forall c method resource,
     passesValidation sampleUnmarshal noFmt (Some widgetsDoc) c method ->
     handle sampleUnmarshal noFmt noMarshal (Some widgetsDoc) c method resource
            "data.json" wedgedWorld = Blocks wedgedWorld)
  /\ forall reqs,
       serve sampleUnmarshal noFmt noMarshal (Some widgetsDoc) "data.json"
             reqs wedgedWorld = wedgedWorld.
Proof.
  apply (held_mutex_freezes_store sampleUnmarshal noFmt noMarshal
           (Some widgetsDoc) "data.json" wedgedWorld).
  reflexivity.
Defined.

Lemma findItem_from (id : Z) (list : list record) (n : nat) :
  match findItem id list n with
  | Found i item =>
      (n <= i)%nat /\ list !! (i - n)%nat = Some item
      /\ (exists f, item !! "id" = Some (VFloat f) /\ int_of_float64 f = id)
      /\ forall j r, (j < i - n)%nat -> list !! j = Some r ->
           exists f, r !! "id" = Some (VFloat f) /\ int_of_float64 f <> id
  | NotFound =>
      forall r, r ∈ list ->
        exists f, r !! "id" = Some (VFloat f) /\ int_of_float64 f <> id
  | AssertPanic =>
      exists j r, list !! j = Some r
        /\ (forall f, r !! "id" <> Some (VFloat f))
        /\ forall k r', (k < j)%nat -> list !! k = Some r' ->
             exists f, r' !! "id" = Some (VFloat f) /\ int_of_float64 f <> id
  end.
Proof.
  revert n. induction list as [|item rest IH]; intros n; simpl.
  - intros r Hr. by apply elem_of_nil in Hr.
  - destruct (item !! "id") as [v|] eqn:Hid.
    2:{ exists 0%nat, item. split; [done|]. split; [congruence|]. intros; lia. }
    destruct v as [| |f| | | |];
      try (exists 0%nat, item; split; [done|]; split; [congruence|];
           intros; lia).
    destruct (int_of_float64 f =? id) eqn:Heq.
    + apply Z.eqb_eq in Heq. split; [lia|].
      rewrite Nat.sub_diag. split; [done|]. split; [by exists f|].
      intros; lia.
    + apply Z.eqb_neq in Heq. specialize (IH (S n)).
      destruct (findItem id rest (S n)) as [i item'| |].
      * destruct IH as (Hle & Hl & Hm & Hbefore).
        split; [lia|]. replace (i - n)%nat with (S (i - S n)) by lia.
        split; [done|]. split; [done|].
        intros [|j] r Hj Hr.
        -- injection Hr as <-. by exists f.
        -- apply (Hbefore j r); [lia|done].
      * intros r Hr. apply elem_of_cons in Hr as [->|Hr]; [by exists f|].
        by apply IH.
      * destruct IH as (j & r & Hl & Hbad & Hbefore).
        exists (S j), r. split; [done|]. split; [done|].
        intros [|k] r' Hk Hr'.
        -- injection Hr' as <-. by exists f.
        -- apply (Hbefore k r'); [lia|done].
Qed.

(** X19.  The lookup by id scans the list in order: it finds the first
    record whose id, a [float64], truncates to the wanted integer; it
    reports not-found only if every record carries a [float64] id that
    differs; and it panics exactly when, before any match, it meets a
    record whose id is missing or is not a [float64]. *)
Theorem findItem_first_match (id : Z) (list : list record) :
  match findItem id list 0 with
  | Found i item =>
      list !! i = Some item
      /\ (exists f, item !! "id" = Some (VFloat f) /\ int_of_float64 f = id)
      /\ forall j r, (j < i)%nat -> list !! j = Some r ->
           exists f, r !! "id" = Some (VFloat f) /\ int_of_float64 f <> id
  | NotFound =>
      forall r, r ∈ list ->
        exists f, r !! "id" = Some (VFloat f) /\ int_of_float64 f <> id
  | AssertPanic =>
      exists j r, list !! j = Some r
        /\ (forall f, r !! "id" <> Some (VFloat f))
        /\ forall k r', (k < j)%nat -> list !! k = Some r' ->
             exists f, r' !! "id" = Some (VFloat f) /\ int_of_float64 f <> id
  end.
Proof.
  pose proof (findItem_from id list 0) as H.
  destruct (findItem id list 0) as [i item| |]; [|done|done].
  destruct H as (_ & Hl & Hm & Hbefore).
  rewrite Nat.sub_0_r in Hl, Hbefore. done.
Qed.

Ltac eval_method_tests :=
  repeat match goal with
         | |- context [String.eqb ?a ?b] =>
             first [ change (String.eqb a b) with true
                   | change (String.eqb a b) with false ]
         end;
  cbv beta iota delta [orb].

Lemma passesValidation_sample (c : Ctx) (method : string) :
  securityStep (Some widgetsDoc)
    (operationForPathMethod (Some widgetsDoc) (RoutePath c) method) c = None ->
  contentStep sampleUnmarshal noFmt
    (operationForPathMethod (Some widgetsDoc) (RoutePath c) method) method c
  = None ->
  paramStep (from_option opParameters []
               (operationForPathMethod (Some widgetsDoc) (RoutePath c) method))
            c = None ->
  passesValidation sampleUnmarshal noFmt (Some widgetsDoc) c method.
Proof. intros H1 H2 H3. by repeat split. Qed.

(** X20.  A GET that passes validation with the mutex free and a
    positive id answers 200 with the first record whose id matches, 404
    when no record matches, and panics when the scan meets a record
    without a [float64] id; in each case the mutex is free again and no
    record list has changed. *)
Theorem get_by_id
    (json_Unmarshal : string -> string + record) (fmt_v : value -> string)
    (json_MarshalIndent : gmap string (list record) -> string)
    (doc : option T) (c : Ctx) (resource dataFile : string) (w : World) :
  passesValidation json_Unmarshal fmt_v doc c MethodGet ->
  mu (store w) = false ->
  0 < Atoi (Params c "id") ->
  handle json_Unmarshal fmt_v json_MarshalIndent doc c MethodGet resource
         dataFile w
  = match findItem (Atoi (Params c "id")) (recordsOf w resource) 0 with
    | Found _ item => Returns (RespJSON 200 (VObj item)) (ensureList resource w)
    | NotFound => Returns ErrNotFound (ensureList resource w)
    | AssertPanic => Panics (ensureList resource w)
    end.
Proof.
  intros Hval Hmu Hid. rewrite handle_validated_free by done.
  unfold mockResponse. cbv zeta. rewrite mockResponse_reads.
  eval_method_tests.
  apply Z.ltb_lt in Hid. rewrite Hid.
  destruct (findItem (Atoi (Params c "id")) (recordsOf w resource) 0);
    by rewrite unlock_after_ensureList.
Qed.

Lemma get_by_id_witness :
  handle sampleUnmarshal noFmt noMarshal (Some widgetsDoc) (byId "2") MethodGet
         "widgets" "data.json" loadedWorld
  = match findItem (Atoi (Params (byId "2") "id"))
                   (recordsOf loadedWorld "widgets") 0 with
    | Found _ item =>
        Returns (RespJSON 200 (VObj item)) (ensureList "widgets" loadedWorld)
    | NotFound => Returns ErrNotFound (ensureList "widgets" loadedWorld)
    | AssertPanic => Panics (ensureList "widgets" loadedWorld)
    end.
Proof.
  apply (get_by_id sampleUnmarshal noFmt noMarshal (Some widgetsDoc)
           (byId "2") "widgets" "data.json" loadedWorld).
  - apply passesValidation_sample; reflexivity.
  - reflexivity.
  - reflexivity.
Defined.

(** X21.  With validation passed and the mutex free: a method other than
    GET, POST, PUT, PATCH and DELETE is answered not-implemented, and an
    update or delete whose id matches no record is answered not-found;
    in both cases nothing is written, the mutex is free again and every
    record list is as before. *)
Theorem unsupported_method_and_unknown_id
    (json_Unmarshal : string -> string + record) (fmt_v : value -> string)
    (json_MarshalIndent : gmap string (list record) -> string)
    (doc : option T) (c : Ctx) (method resource dataFile : string)
    (w : World) :
  passesValidation json_Unmarshal fmt_v doc c method ->
  mu (store w) = false ->
  (method ∉ [MethodGet; MethodPost; MethodPut; MethodPatch; MethodDelete] ->
   handle json_Unmarshal fmt_v json_MarshalIndent doc c method resource
          dataFile w
   = Returns ErrNotImplemented (ensureList resource w))
  /\ (method ∈ [MethodPut; MethodPatch; MethodDelete] ->
      findItem (Atoi (Params c "id")) (recordsOf w resource) 0 = NotFound ->
      handle json_Unmarshal fmt_v json_MarshalIndent doc c method resource
             dataFile w
      = Returns ErrNotFound (ensureList resource w))
  /\ (forall r, recordsOf (ensureList resource w) r = recordsOf w r)
  /\ files (ensureList resource w) = files w
  /\ mu (store (ensureList resource w)) = false.
Proof.
  intros Hval Hmu.
  split; [|split; [|split; [|split]]].
  - intros Hm. rewrite handle_validated_free by done.
    unfold mockResponse. cbv zeta.
    rewrite !(eqb_false_of_not_in method _ _ Hm)
      by (repeat first [left|right]).
    simpl. by rewrite unlock_after_ensureList.
  - intros Hm Hfind. rewrite handle_validated_free by done.
    unfold mockResponse. cbv zeta. rewrite mockResponse_reads, Hfind.
    repeat (apply elem_of_cons in Hm as [->|Hm]);
      [| | |by apply elem_of_nil in Hm];
      eval_method_tests; by rewrite unlock_after_ensureList.
  - intros r. apply recordsOf_ensureList.
  - apply files_ensureList.
  - by rewrite mu_ensureList.
Qed.

Lemma unsupported_method_and_unknown_id_witness :
  ("DELETE" ∉ [MethodGet; MethodPost; MethodPut; MethodPatch; MethodDelete] ->
   handle sampleUnmarshal noFmt noMarshal (Some widgetsDoc) (byId "9")
          MethodDelete "widgets" "data.json" loadedWorld
   = Returns ErrNotImplemented (ensureList "widgets" loadedWorld))
  /\ (MethodDelete ∈ [MethodPut; MethodPatch; MethodDelete] ->
      findItem (Atoi (Params (byId "9") "id"))
               (recordsOf loadedWorld "widgets") 0 = NotFound ->
      handle sampleUnmarshal noFmt noMarshal (Some widgetsDoc) (byId "9")
             MethodDelete "widgets" "data.json" loadedWorld
      = Returns ErrNotFound (ensureList "widgets" loadedWorld))
  /\ (forall r, recordsOf (ensureList "widgets" loadedWorld) r
                = recordsOf loadedWorld r)
  /\ files (ensureList "widgets" loadedWorld) = files loadedWorld
  /\ mu (store (ensureList "widgets" loadedWorld)) = false.
Proof.
  apply (unsupported_method_and_unknown_id sampleUnmarshal noFmt noMarshal
           (Some widgetsDoc) (byId "9") MethodDelete "widgets" "data.json"
           loadedWorld).
  - apply passesValidation_sample; reflexivity.
  - reflexivity.
Defined.

(** X22.  When the first record of the list carries no [float64] under
    "id" (as every record that a create put there in this process, whose
    id is an [int]), every update and delete, and every GET with a
    positive id, that passes validation with the mutex free panics; the
    deferred unlock frees the mutex and no list has changed. *)
Theorem lookup_panics_on_int_id
    (json_Unmarshal : string -> string + record) (fmt_v : value -> string)
    (json_MarshalIndent : gmap string (list record) -> string)
    (doc : option T) (c : Ctx) (method resource dataFile : string)
    (w : World) (r : record) (l : list record) :
  passesValidation json_Unmarshal fmt_v doc c method ->
  mu (store w) = false ->
  recordsOf w resource = r :: l ->
  (forall f, r !! "id" <> Some (VFloat f)) ->
  method ∈ [MethodPut; MethodPatch; MethodDelete]
  \/ (method = MethodGet /\ 0 < Atoi (Params c "id")) ->
  handle json_Unmarshal fmt_v json_MarshalIndent doc c method resource
         dataFile w
  = Panics (ensureList resource w).
Proof.
  intros Hval Hmu Hl Hr Hm. rewrite handle_validated_free by done.
  assert (Hfind : findItem (Atoi (Params c "id")) (recordsOf w resource) 0
                  = AssertPanic).
  { rewrite Hl. simpl. destruct (r !! "id") as [[| |f| | | |]|] eqn:Hid; try done.
    by destruct (Hr f). }
  unfold mockResponse. cbv zeta. rewrite mockResponse_reads, Hfind.
  destruct Hm as [Hm|[-> Hid]].
  - repeat (apply elem_of_cons in Hm as [->|Hm]);
      [| | |by apply elem_of_nil in Hm];
      eval_method_tests; by rewrite unlock_after_ensureList.
  - eval_method_tests. apply Z.ltb_lt in Hid. rewrite Hid.
    by rewrite unlock_after_ensureList.
Qed.

Lemma lookup_panics_on_int_id_witness :
  handle sampleUnmarshal noFmt noMarshal (Some widgetsDoc) (byId "1")
         MethodDelete "widgets" "data.json" (setMu false wedgedWorld)
  = Panics (ensureList "widgets" (setMu false wedgedWorld)).
Proof.
  apply (lookup_panics_on_int_id sampleUnmarshal noFmt noMarshal
           (Some widgetsDoc) (byId "1") MethodDelete "widgets" "data.json"
           (setMu false wedgedWorld) redRecord []).
  - apply passesValidation_sample; reflexivity.
  - reflexivity.
  - reflexivity.
  - intros f Hf. vm_compute in Hf. discriminate Hf.
  - left. right. right. left.
Defined.

(** X23.  An update or delete that passes validation with the mutex free
    and finds its record changes the list in memory and then waits for
    ever inside [Save] with the mutex held and no file written: the
    update has replaced the record by the record with the body's fields
    laid over it (a field of the body wins, "id" included; the other
    fields stay), the delete has removed exactly the record found; the
    lists of the other resources are untouched. *)
Theorem update_and_delete_in_memory
    (json_Unmarshal : string -> string + record) (fmt_v : value -> string)
    (json_MarshalIndent : gmap string (list record) -> string)
    (doc : option T) (c : Ctx) (method resource dataFile : string)
    (w : World) (i : nat) (item : record) :
  passesValidation json_Unmarshal fmt_v doc c method ->
  mu (store w) = false ->
  findItem (Atoi (Params c "id")) (recordsOf w resource) 0 = Found i item ->
  method ∈ [MethodPut; MethodPatch; MethodDelete] ->
  exists w',
    handle json_Unmarshal fmt_v json_MarshalIndent doc c method resource
           dataFile w = Blocks w'
    /\ mu (store w') = true
    /\ files w' = files w
    /\ (forall r, r <> resource -> recordsOf w' r = recordsOf w r)
    /\ recordsOf w' resource
       = (if String.eqb method MethodDelete
          then take i (recordsOf w resource) ++ drop (S i) (recordsOf w resource)
          else <[i := assignAll (BodyParser c) item]> (recordsOf w resource))
    /\ forall k, assignAll (BodyParser c) item !! k
                 = match BodyParser c !! k with
                   | Some v => Some v
                   | None => item !! k
                   end.
Proof.
  intros Hval Hmu Hfind Hm. rewrite handle_validated_free by done.
  unfold mockResponse. cbv zeta. rewrite mockResponse_reads, Hfind.
  pose proof (mu_ensureList resource (setMu true w)) as Hmu1. simpl in Hmu1.
  pose proof (files_ensureList resource (setMu true w)) as Hf1. simpl in Hf1.
  assert (Hother : forall l' r, r <> resource ->
            recordsOf (setData (<[resource := l']>
                                  (Data (store (ensureList resource (setMu true w)))))
                               (ensureList resource (setMu true w))) r
            = recordsOf w r).
  { intros l' r Hne. unfold recordsOf at 1. simpl.
    rewrite lookup_insert_ne by done.
    fold (recordsOf (ensureList resource (setMu true w)) r).
    by rewrite recordsOf_ensureList, recordsOf_setMu. }
  assert (Hthis : forall l',
            recordsOf (setData (<[resource := l']>
                                  (Data (store (ensureList resource (setMu true w)))))
                               (ensureList resource (setMu true w))) resource
            = l').
  { intros l'. unfold recordsOf. simpl. by rewrite lookup_insert_eq. }
  repeat (apply elem_of_cons in Hm as [->|Hm]);
    [| | |by apply elem_of_nil in Hm];
    eval_method_tests; unfold bind;
    rewrite saveStore_locked by (simpl; exact Hmu1);
    eexists; (split; [reflexivity|]); (split; [exact Hmu1|]);
    (split; [exact Hf1|]); (split; [apply Hother|]);
    (split; [apply Hthis|]); intros k; apply assignAll_lookup.
Qed.

Lemma update_and_delete_in_memory_witness :
  exists w',
    handle sampleUnmarshal noFmt noMarshal (Some widgetsDoc) (byId "1")
           MethodDelete "widgets" "data.json" loadedWorld = Blocks w'
    /\ mu (store w') = true
    /\ files w' = files loadedWorld
    /\ (forall r, r <> "widgets" -> recordsOf w' r = recordsOf loadedWorld r)
    /\ recordsOf w' "widgets"
       = (if String.eqb MethodDelete MethodDelete
          then take 0 (recordsOf loadedWorld "widgets")
               ++ drop 1 (recordsOf loadedWorld "widgets")
          else <[0%nat := assignAll (BodyParser (byId "1")) firstWidget]>
                 (recordsOf loadedWorld "widgets"))
    /\ forall k, assignAll (BodyParser (byId "1")) firstWidget !! k
                 = match BodyParser (byId "1") !! k with
                   | Some v => Some v
                   | None => firstWidget !! k
                   end.
Proof.
  apply (update_and_delete_in_memory sampleUnmarshal noFmt noMarshal
           (Some widgetsDoc) (byId "1") MethodDelete "widgets" "data.json"
           loadedWorld 0 firstWidget).
  - apply passesValidation_sample; reflexivity.
  - reflexivity.
  - reflexivity.
  - right. right. left.
Defined.

(** ** Persistence *)

(** X24.  [saveStore] called with the mutex held waits for ever and
    writes nothing; called with the mutex free it returns with the
    serialized table written under the data file name, or under
    "data.json" when that name is empty, every other file, the table and
    the free mutex being as before. *)
Theorem saveStore_outcome
    (json_MarshalIndent : gmap string (list record) -> string)
    (dataFile : string) (w : World) :
  saveStore json_MarshalIndent dataFile w
  = if mu (store w) then Blocks w
    else Returns tt
           (mkWorld (store w)
              (<[(if String.eqb dataFile "" then "data.json" else dataFile)
                 := json_MarshalIndent (Data (store w))]> (files w))).
Proof.
  destruct (mu (store w)) eqn:Hmu.
  - by apply saveStore_locked.
  - unfold saveStore. destruct (String.eqb dataFile ""); by apply Save_free.
Qed.

(** X25.  [NewStore] on a file that is not there gives the empty table
    with the mutex free; and loading the file that [Save] has just
    written, with the mutex free, gives back the store that was saved,
    whenever decoding the serialized table yields that table. *)
Theorem save_then_load
    (json_UnmarshalTable : string -> gmap string (list record))
    (json_MarshalIndent : gmap string (list record) -> string)
    (file : string) (w : World) :
  mu (store w) = false ->
  json_UnmarshalTable (json_MarshalIndent (Data (store w))) = Data (store w) ->
  NewStore json_UnmarshalTable file
           (files (world_of (Save json_MarshalIndent file w)))
  = store w
  /\ forall fs, fs !! file = None ->
                NewStore json_UnmarshalTable file fs = mkStore false ∅.
Proof.
  intros Hmu Hround. split.
  - rewrite Save_free by done. simpl. unfold NewStore.
    rewrite lookup_insert_eq, Hround.
    destruct w as [[m d] f]. simpl in *. by subst m.
  - intros fs Hfs. unfold NewStore. by rewrite Hfs.
Qed.

Lemma save_then_load_witness :
  NewStore (fun _ => Data (store loadedWorld)) "data.json"
           (files (world_of (Save noMarshal "data.json" loadedWorld)))
  = store loadedWorld
  /\ forall fs, fs !! "data.json" = None ->
                NewStore (fun _ => Data (store loadedWorld)) "data.json" fs
                = mkStore false ∅.
Proof.
  apply (save_then_load (fun _ => Data (store loadedWorld)) noMarshal
           "data.json" loadedWorld); reflexivity.
Defined.

(** ** Route registration *)

Lemma beforeByte_free (a : ascii) (s : string) :
  Forall (fun b => b <> a) (list_ascii_of_string (beforeByte a s)).
Proof.
  induction s as [|b r IH]; simpl; [constructor|].
  destruct (Ascii.eqb b a) eqn:Hb; simpl; [constructor|].
  constructor; [by apply Ascii.eqb_neq|done].
Qed.

Lemma trimRightByte_head (a : ascii) (x : string) :
  trimRightByte a (String a x) = EmptyString
  \/ exists t, trimRightByte a (String a x) = String a t.
Proof.
  simpl. destruct (trimRightByte a x); [left|right; by eexists].
  by rewrite Ascii.eqb_refl.
Qed.

Lemma append_empty_r (s : string) : s +:+ EmptyString = s.
Proof.
  induction s as [|b r IH]; [done|].
  change (String b r +:+ EmptyString) with (String b (r +:+ EmptyString)).
  by rewrite IH.
Qed.

Lemma beforeByte_cons (a b : ascii) (s : string) :
  beforeByte a (String b s)
  = if Ascii.eqb b a then EmptyString else String b (beforeByte a s).
Proof. reflexivity. Qed.

Lemma trimRightByte_cons (a b : ascii) (s : string) :
  trimRightByte a (String b s)
  = match trimRightByte a s with
    | EmptyString => if Ascii.eqb b a then EmptyString else String b EmptyString
    | String c t => String b (String c t)
    end.
Proof. simpl. by destruct (trimRightByte a s). Qed.

Lemma first_segment_after_trim (a : ascii) (seg x : string) :
  seg <> EmptyString ->
  Forall (fun b => b <> a) (list_ascii_of_string seg) ->
  x = EmptyString \/ (exists x', x = String a x') ->
  beforeByte a (trimRightByte a (seg +:+ x)) = seg.
Proof.
  intros Hne Hfree Hx. induction seg as [|b r IH]; [done|].
  simpl in Hfree. apply Forall_cons in Hfree as [Hb Hfree].
  apply Ascii.eqb_neq in Hb.
  change (String b r +:+ x) with (String b (r +:+ x)).
  destruct r as [|b' r'].
  - change (EmptyString +:+ x) with x.
    destruct Hx as [->|[x' ->]].
    + simpl. by rewrite Hb; simpl; rewrite Hb.
    + cbn [trimRightByte].
      destruct (trimRightByte_head a x') as [Ht|[t Ht]];
        cbn [trimRightByte] in Ht; rewrite Ht.
      * by rewrite Hb; simpl; rewrite Hb.
      * simpl. by rewrite Hb, Ascii.eqb_refl.
  - specialize (IH ltac:(done) Hfree).
    rewrite trimRightByte_cons.
    destruct (trimRightByte a (String b' r' +:+ x)) as [|c t] eqn:Ht.
    + simpl in IH. discriminate IH.
    + by rewrite beforeByte_cons, Hb, IH.
Qed.

Lemma trimLeftByte_segment (a : ascii) (seg x : string) :
  seg <> EmptyString ->
  Forall (fun b => b <> a) (list_ascii_of_string seg) ->
  trimLeftByte a (seg +:+ x) = seg +:+ x.
Proof.
  intros Hne Hfree. destruct seg as [|b r]; [done|].
  simpl in Hfree. apply Forall_cons in Hfree as [Hb _].
  apply Ascii.eqb_neq in Hb. simpl. by rewrite Hb.
Qed.

(** X26.  The resource name of a path never contains a slash, and a path
    made of a slash, a first segment that is not empty and has no slash,
    and then nothing or a slash followed by anything, has that first
    segment as its resource name: a collection path and the paths below
    it share one resource. *)
Theorem resourceOf_first_segment (seg : string) :
  seg <> EmptyString ->
  Forall (fun b => b <> "/"%char) (list_ascii_of_string seg) ->
  resourceOf ("/" +:+ seg) = seg
  /\ (forall rest, resourceOf ("/" +:+ seg +:+ "/" +:+ rest) = seg)
  /\ forall p, Forall (fun b => b <> "/"%char)
                      (list_ascii_of_string (resourceOf p)).
Proof.
  intros Hne Hfree. unfold resourceOf, TrimByte. split; [|split].
  - change ("/" +:+ seg) with (String "/"%char seg).
    cbn [trimLeftByte]. rewrite Ascii.eqb_refl.
    rewrite <- (append_empty_r seg) at 1.
    rewrite trimLeftByte_segment by done.
    apply first_segment_after_trim; auto.
  - intros rest.
    change ("/" +:+ seg +:+ "/" +:+ rest)
      with (String "/"%char (seg +:+ String "/"%char rest)).
    cbn [trimLeftByte]. rewrite Ascii.eqb_refl.
    rewrite trimLeftByte_segment by done.
    apply first_segment_after_trim; eauto.
  - intros p. apply beforeByte_free.
Qed.

Lemma resourceOf_first_segment_witness :
  resourceOf ("/" +:+ "widgets") = "widgets"
  /\ (forall rest, resourceOf ("/" +:+ "widgets" +:+ "/" +:+ rest) = "widgets")
  /\ forall p, Forall (fun b => b <> "/"%char)
                      (list_ascii_of_string (resourceOf p)).
Proof.
  apply (resourceOf_first_segment "widgets").
  - discriminate.
  - repeat constructor; discriminate.
Defined.

Lemma registerPath_data (p : string) (item : PathItem)
    (acc : gmap string (list record) * list Route) (r : string) :
  default [] ((registerPath p item acc).1 !! r) = default [] (acc.1 !! r)
  /\ (is_Some (acc.1 !! r) -> (registerPath p item acc).1 !! r = acc.1 !! r)
  /\ is_Some ((registerPath p item acc).1 !! resourceOf p).
Proof.
  unfold registerPath. simpl.
  destruct (acc.1 !! resourceOf p) as [l|] eqn:Hl.
  - rewrite Hl. repeat split; by eexists.
  - repeat split.
    + destruct (decide (resourceOf p = r)) as [<-|Hne].
      * by rewrite lookup_insert_eq, Hl.
      * by rewrite lookup_insert_ne.
    + intros [l Hr]. destruct (decide (resourceOf p = r)) as [<-|Hne].
      * congruence.
      * by rewrite lookup_insert_ne.
    + rewrite lookup_insert_eq. by eexists.
Qed.

(** X27.  [RegisterRoutes] leaves every record list as it was, gives an
    empty list to the resource of every path of the document that had
    none, and adds one route for each path and each method the path
    declares, and no other route; the handler of a route is called with
    the first segment of the route's path as its resource. *)
Theorem RegisterRoutes_effect (paths : gmap string PathItem)
    (data : gmap string (list record)) :
  (forall r, default [] ((RegisterRoutes paths data).1 !! r)
             = default [] (data !! r))
  /\ (forall r, is_Some (data !! r) ->
                (RegisterRoutes paths data).1 !! r = data !! r)
  /\ (forall p item, paths !! p = Some item ->
                     is_Some ((RegisterRoutes paths data).1 !! resourceOf p))
  /\ (forall rt, rt ∈ (RegisterRoutes paths data).2
                 <-> exists item, paths !! rtPath rt = Some item
                                  /\ rtMethod rt ∈ methodsOf item
                                  /\ rtResource rt = resourceOf (rtPath rt)).
Proof.
  unfold RegisterRoutes.
  apply (map_fold_weak_ind
           (fun acc (m : gmap string PathItem) =>
              (forall r, default [] (acc.1 !! r) = default [] (data !! r))
              /\ (forall r, is_Some (data !! r) -> acc.1 !! r = data !! r)
              /\ (forall p item, m !! p = Some item ->
                                 is_Some (acc.1 !! resourceOf p))
              /\ (forall rt, rt ∈ acc.2
                             <-> exists item, m !! rtPath rt = Some item
                                              /\ rtMethod rt ∈ methodsOf item
                                              /\ rtResource rt
                                                 = resourceOf (rtPath rt)))).
  - simpl. repeat split.
    + intros p item Hp. by rewrite lookup_empty in Hp.
    + intros Hrt. by apply elem_of_nil in Hrt.
    + intros (item & Hp & _). by rewrite lookup_empty in Hp.
  - intros p item m acc Hfresh (Hdef & Hkeep & Hres & Hroutes).
    split; [|split; [|split]].
    + intros r. destruct (registerPath_data p item acc r) as (-> & _ & _).
      apply Hdef.
    + intros r Hr. destruct (registerPath_data p item acc r) as (_ & Hk & _).
      rewrite Hk; [by apply Hkeep|]. by rewrite Hkeep.
    + intros q item' Hq.
      destruct (decide (p = q)) as [<-|Hne].
      * by destruct (registerPath_data p item acc p) as (_ & _ & Hs).
      * rewrite lookup_insert_ne in Hq by done.
        destruct (registerPath_data p item acc (resourceOf q)) as (_ & Hk & _).
        rewrite Hk; by eapply Hres.
    + intros rt. unfold registerPath. simpl.
      rewrite elem_of_app, Hroutes, list_elem_of_fmap. split.
      * intros [(item' & Hq & Hm & Hr)|(m' & -> & Hm)].
        -- exists item'. split; [|done].
           rewrite lookup_insert_ne; [done|].
           intros Heq. rewrite <- Heq in Hq. congruence.
        -- simpl. exists item. by rewrite lookup_insert_eq.
      * intros (item' & Hq & Hm & Hr).
        destruct (decide (p = rtPath rt)) as [Heq|Hne].
        -- right. rewrite <- Heq, lookup_insert_eq in Hq. injection Hq as <-.
           exists (rtMethod rt). split; [|done].
           destruct rt as [rm rp rr]. simpl in *. by subst.
        -- left. rewrite lookup_insert_ne in Hq by done. by exists item'.
Qed.

(** ** A create wedges the store *)

Lemma serve_held (json_Unmarshal : string -> string + record)
    (fmt_v : value -> string)
    (json_MarshalIndent : gmap string (list record) -> string)
    (doc : option T) (dataFile : string) (reqs : list Request) (w : World) :
  mu (store w) = true ->
  serve json_Unmarshal fmt_v json_MarshalIndent doc dataFile reqs w = w.
Proof.
  intros Hmu. induction reqs as [|r rest IH]; simpl; [done|].
  destruct (handle_cases json_Unmarshal fmt_v json_MarshalIndent doc
              (rqCtx r) (rqMethod r) (rqResource r) dataFile w)
    as [[a Ho]|[[_ Ho]|[Hf _]]]; [| |congruence];
    simpl in Ho; by rewrite Ho.
Qed.

(** X28.  A create that passes validation with the mutex free and whose
    parsed body is a map appends to the resource's list, in memory, the
    body with "id" set to the [int] length of the list plus one (an "id"
    sent in the body is replaced), leaves the other lists and the files
    alone, and never returns: the mutex stays held, and whatever requests
    follow, the world does not change any more.  When the parser has left
    a nil map (a JSON body [null]) the create panics on the assignment of
    the id: the mutex is free again and no list has changed. *)
Theorem create_wedges_store
    (json_Unmarshal : string -> string + record) (fmt_v : value -> string)
    (json_MarshalIndent : gmap string (list record) -> string)
    (doc : option T) (c : Ctx) (resource dataFile : string) (w : World) :
  passesValidation json_Unmarshal fmt_v doc c MethodPost ->
  mu (store w) = false ->
  match parsedBody c with
  | Some body =>
      exists w',
        handle json_Unmarshal fmt_v json_MarshalIndent doc c MethodPost
               resource dataFile w = Blocks w'
        /\ recordsOf w' resource
           = recordsOf w resource
               ++ [<["id" := VInt (Z.of_nat (length (recordsOf w resource)) + 1)]>
                     body]
        /\ (forall r, r <> resource -> recordsOf w' r = recordsOf w r)
        /\ files w' = files w
        /\ forall reqs,
             serve json_Unmarshal fmt_v json_MarshalIndent doc dataFile reqs w'
             = w'
  | None =>
      handle json_Unmarshal fmt_v json_MarshalIndent doc c MethodPost resource
             dataFile w
      = Panics (ensureList resource w)
  end.
Proof.
  intros Hval Hmu. rewrite handle_validated_free by done.
  unfold mockResponse. cbv zeta. rewrite mockResponse_reads.
  pose proof (mu_ensureList resource (setMu true w)) as Hmu1. simpl in Hmu1.
  pose proof (files_ensureList resource (setMu true w)) as Hf1. simpl in Hf1.
  eval_method_tests.
  destruct (parsedBody c) as [body|]; [|by rewrite unlock_after_ensureList].
  unfold bind. rewrite saveStore_locked by (simpl; exact Hmu1).
  eexists. split; [reflexivity|]. split; [|split; [|split]].
  - unfold recordsOf at 1. simpl. by rewrite lookup_insert_eq.
  - intros r Hne. unfold recordsOf at 1. simpl.
    rewrite lookup_insert_ne by done.
    fold (recordsOf (ensureList resource (setMu true w)) r).
    by rewrite recordsOf_ensureList, recordsOf_setMu.
  - exact Hf1.
  - intros reqs. apply serve_held. simpl. exact Hmu1.
Qed.

Lemma create_wedges_store_witness :
  exists w',
    handle sampleUnmarshal noFmt noMarshal (Some widgetsDoc) createRed
           MethodPost "widgets" "data.json" loadedWorld = Blocks w'
    /\ recordsOf w' "widgets"
       = recordsOf loadedWorld "widgets"
           ++ [<["id" := VInt (Z.of_nat (length (recordsOf loadedWorld "widgets")) + 1)]>
                 {[ "color" := VString "red" ]}]
    /\ (forall r, r <> "widgets" -> recordsOf w' r = recordsOf loadedWorld r)
    /\ files w' = files loadedWorld
    /\ forall reqs,
         serve sampleUnmarshal noFmt noMarshal (Some widgetsDoc) "data.json"
               reqs w' = w'.
Proof.
  apply (create_wedges_store sampleUnmarshal noFmt noMarshal (Some widgetsDoc)
           createRed "widgets" "data.json" loadedWorld).
  - apply passesValidation_sample; reflexivity.
  - reflexivity.
Defined.

(** ** The media type of the Content-Type header *)

Lemma beforeSemicolon_base (base rest : string) :
  Forall (fun b => b <> ";"%char) (list_ascii_of_string base) ->
  beforeSemicolon (base +:+ String ";"%char rest) = base
  /\ beforeSemicolon base = base.
Proof.
  induction base as [|b r IH]; intros Hfree; [done|].
  simpl in Hfree. apply Forall_cons in Hfree as [Hb Hfree].
  apply Ascii.eqb_neq in Hb. destruct (IH Hfree) as [IH1 IH2].
  change (String b r +:+ String ";"%char rest)
    with (String b (r +:+ String ";"%char rest)).
  simpl. by rewrite Hb, IH1, IH2.
Qed.

Lemma dropPrefixOf_first_byte (cands : list string) (b : ascii) (r : string) :
  Forall (fun p => match p with
                   | String c _ => visibleAscii c = false
                   | EmptyString => False
                   end) cands ->
  visibleAscii b = true ->
  dropPrefixOf cands (String b r) = None.
Proof.
  intros Hc Hvis. unfold dropPrefixOf.
  assert (Hfind : List.find (fun p => String.prefix p (String b r)) cands = None).
  { induction Hc as [|p rest Hp _ IH]; [done|]. simpl.
    destruct p as [|c t]; [done|]. simpl.
    destruct (ascii_dec c b) as [->|_]; [congruence|exact IH]. }
  by rewrite Hfind.
Qed.

Lemma no_space_prefix (b : ascii) (r : string) :
  visibleAscii b = true ->
  dropPrefixOf unicodeSpaces (String b r) = None
  /\ dropPrefixOf (List.map revString unicodeSpaces) (String b r) = None.
Proof.
  intros Hvis. split.
  - apply dropPrefixOf_first_byte; [|exact Hvis].
    vm_compute. repeat constructor.
  - apply dropPrefixOf_first_byte; [|exact Hvis].
    vm_compute. repeat constructor.
Qed.

Lemma trimLeftSet_none (fuel : nat) (cands : list string) (s : string) :
  dropPrefixOf cands s = None -> trimLeftSet fuel cands s = s.
Proof. intros Hd. destruct fuel; simpl; [done|]. by rewrite Hd. Qed.

Lemma revString_involutive (s : string) : revString (revString s) = s.
Proof.
  unfold revString.
  rewrite list_ascii_of_string_of_list_ascii.
  rewrite List.rev_involutive.
  apply string_of_list_ascii_of_string.
Qed.

Lemma TrimSpace_visible (s : string) (f l : ascii) :
  head (list_ascii_of_string s) = Some f ->
  last (list_ascii_of_string s) = Some l ->
  visibleAscii f = true -> visibleAscii l = true ->
  TrimSpace s = s.
Proof.
  intros Hf Hl Hvf Hvl. unfold TrimSpace.
  assert (Hleft : dropPrefixOf unicodeSpaces s = None).
  { destruct s as [|b r]; [discriminate Hf|].
    change (list_ascii_of_string (String b r))
      with (b :: list_ascii_of_string r) in Hf.
    injection Hf as ->. exact (proj1 (no_space_prefix f r Hvf)). }
  rewrite (trimLeftSet_none _ _ _ Hleft).
  assert (Hright : dropPrefixOf (List.map revString unicodeSpaces) (revString s)
                   = None).
  { apply last_Some in Hl as [l' Hl]. unfold revString. rewrite Hl.
    rewrite rev_app_distr.
    change (string_of_list_ascii (rev [l] ++ rev l'))
      with (String l (string_of_list_ascii (rev l'))).
    exact (proj2 (no_space_prefix l _ Hvl)). }
  rewrite (trimLeftSet_none _ _ _ Hright).
  apply revString_involutive.
Qed.

(** X29.  For a media type that has no semicolon and whose first and last
    bytes are printable ASCII other than the space, the content step
    looks up the same key whether the Content-Type header is that media
    type alone or the media type followed by a semicolon and any
    parameters: parameters such as a charset never change the match. *)
Theorem content_type_parameters_ignored (base : string) (f l : ascii) :
  Forall (fun b => b <> ";"%char) (list_ascii_of_string base) ->
  head (list_ascii_of_string base) = Some f ->
  last (list_ascii_of_string base) = Some l ->
  visibleAscii f = true ->
  visibleAscii l = true ->
  TrimSpace (beforeSemicolon base) = base
  /\ forall params,
       TrimSpace (beforeSemicolon (base +:+ ";" +:+ params)) = base.
Proof.
  intros Hfree Hf Hl Hvf Hvl. split.
  - rewrite (proj2 (beforeSemicolon_base base EmptyString Hfree)).
    by apply TrimSpace_visible with f l.
  - intros params.
    change (base +:+ ";" +:+ params) with (base +:+ String ";"%char params).
    rewrite (proj1 (beforeSemicolon_base base params Hfree)).
    by apply TrimSpace_visible with f l.
Qed.

Lemma content_type_parameters_ignored_witness :
  TrimSpace (beforeSemicolon "application/json") = "application/json"
  /\ forall params,
       TrimSpace (beforeSemicolon ("application/json" +:+ ";" +:+ params))
       = "application/json".
Proof.
  apply (content_type_parameters_ignored "application/json" "a"%char "n"%char).
  - repeat constructor; discriminate.
  - reflexivity.
  - reflexivity.
  - reflexivity.
  - reflexivity.
Defined.
